(** * roomservice.py: a shallow embedding and its verified properties

    The program under study is [build/tools/roomservice.py]: it derives a
    device name from a product name, searches the LineageOS GitHub
    organisation for a matching device repository, picks a revision,
    records the repository in the local manifest
    [.repo/local_manifests/roomservice.xml], triggers [repo sync], and
    walks the [lineage.dependencies] files recursively.

    The embedding keeps the program's own structure.  Python strings are
    [string]; dictionaries with free keys (XML attributes) are [gmap];
    JSON records with fixed keys are records; the file system, the
    standard output and the external commands are threaded through an
    explicit state; [sys.exit] and uncaught exceptions are the two ways a
    computation can stop early. *)

From Stdlib Require Import ZArith Lia Ascii String.
From stdpp Require Import base option list strings gmap.

Local Open Scope string_scope.
Local Open Scope list_scope.

(** ** Python string primitives used by the script *)

Module PyStr.

(** [s.index(c)] for a one-character needle: the lowest position of
    [c], [None] standing for the [ValueError] Python raises. *)
Fixpoint index (c : ascii) (s : string) : option nat :=
  match s with
  | EmptyString => None
  | String a s' =>
      if Ascii.eqb a c then Some 0 else S <$> index c s'
  end.

(** [s[n:]]. *)
Fixpoint slice_from (n : nat) (s : string) : string :=
  match n, s with
  | 0, _ => s
  | S n', String _ s' => slice_from n' s'
  | S _, EmptyString => EmptyString
  end.

(** [s.startswith(p)]. *)
Fixpoint startswith (p s : string) : bool :=
  match p, s with
  | EmptyString, _ => true
  | String a p', String b s' => Ascii.eqb a b && startswith p' s'
  | String _ _, EmptyString => false
  end.

(** [s.replace(old, new)] for a non-empty [old]: left to right, every
    non-overlapping occurrence.  [skip] counts the characters of an
    occurrence that are still to be dropped. *)
Fixpoint replace_from (old new : string) (skip : nat) (s : string) : string :=
  match s with
  | EmptyString => EmptyString
  | String c s' =>
      match skip with
      | S k => replace_from old new k s'
      | 0 =>
          if startswith old s
          then new +:+ replace_from old new (String.length old - 1) s'
          else String c (replace_from old new 0 s')
      end
  end.

Definition replace (old new s : string) : string := replace_from old new 0 s.

(** [sep.join(l)]. *)
Fixpoint join (sep : string) (l : list string) : string :=
  match l with
  | [] => ""
  | [x] => x
  | x :: rest => x +:+ sep +:+ join sep rest
  end.

(** [s.split(c)] with an explicit one-character separator: empty fields
    are kept, and the result always has at least one field. *)
Fixpoint split (c : ascii) (s : string) : list string :=
  match s with
  | EmptyString => [""]
  | String a s' =>
      if Ascii.eqb a c then "" :: split c s'
      else match split c s' with
           | f :: fs => String a f :: fs
           | [] => [String a ""]
           end
  end.

(** Truthiness of a string: non-empty. *)
Definition truthy (s : string) : bool :=
  match s with EmptyString => false | _ => true end.

End PyStr.

(** ** Target resolver (lines 42-48) *)

(** [device = product[product.index("_") + 1:]], and [product] itself when
    [index] raises. *)
Definition device (product : string) : string :=
  match PyStr.index "_" product with
  | Some i => PyStr.slice_from (i + 1) product
  | None => product
  end.

(** ** The part of Python's [re] the script relies on

    The script builds its patterns by interpolating the device name into
    a fixed frame, so the pattern language matters.  The model covers
    literal characters, [.], bracket sets of plain characters, the
    anchors [^] and [$], and the postfix operators [*], [+] and [?] on a
    single-character atom.  A pattern that uses anything else (groups,
    alternation, escapes, counted repetition, ranges, lazy operators) is
    not parsed: [None] stands for "outside the model or rejected by
    [re]". *)

Module PyRe.

Inductive atom :=
| AChar (c : ascii)
| AAny
| ASet (negated : bool) (members : list ascii).

Inductive quant := QOne | QStar | QPlus | QOpt.

Inductive piece :=
| PBol
| PEol
| PAtom (a : atom) (q : quant).

Definition newline : ascii := "010"%char.

(** Characters with a meaning of their own in a pattern. *)
Definition special (c : ascii) : bool :=
  existsb (Ascii.eqb c)
    ["."; "^"; "$"; "*"; "+"; "?"; "{"; "}"; "["; "]"; "\"; "|"; "("; ")"]%char.

(** Body of a bracket set up to the closing bracket: plain members only. *)
Fixpoint parse_set (s : string) : option (list ascii * string) :=
  match s with
  | EmptyString => None
  | String c s' =>
      if Ascii.eqb c "]" then Some ([], s')
      else if existsb (Ascii.eqb c) ["["; "\"; "-"; "^"]%char then None
      else '(cs, rest) ← parse_set s'; Some (c :: cs, rest)
  end.

(** A postfix operator, if one follows; a second operator stacked on
    the first is not modelled. *)
Definition parse_quant (s : string) : option (quant * string) :=
  let stacked (rest : string) :=
    match rest with
    | String c _ => existsb (Ascii.eqb c) ["*"; "+"; "?"; "{"]%char
    | EmptyString => false
    end in
  match s with
  | String "*" rest => if stacked rest then None else Some (QStar, rest)
  | String "+" rest => if stacked rest then None else Some (QPlus, rest)
  | String "?" rest => if stacked rest then None else Some (QOpt, rest)
  | String "{" _ => None
  | _ => Some (QOne, s)
  end.

Definition parse_atom (s : string) : option (atom * string) :=
  match s with
  | EmptyString => None
  | String "." rest => Some (AAny, rest)
  | String "[" (String "^" rest) =>
      '(cs, rest') ← parse_set rest;
      match cs with [] => None | _ => Some (ASet true cs, rest') end
  | String "[" rest =>
      '(cs, rest') ← parse_set rest;
      match cs with [] => None | _ => Some (ASet false cs, rest') end
  | String c rest => if special c then None else Some (AChar c, rest)
  end.

(** The parser consumes at least one character per piece; [fuel] only
    has to cover the length of the pattern. *)
Fixpoint parse_pieces (fuel : nat) (s : string) : option (list piece) :=
  match s with
  | EmptyString => Some []
  | String c rest =>
      match fuel with
      | 0 => None
      | S fuel' =>
          if Ascii.eqb c "^" then
            match parse_quant rest with
            | Some (QOne, _) => cons PBol <$> parse_pieces fuel' rest
            | _ => None
            end
          else if Ascii.eqb c "$" then
            match parse_quant rest with
            | Some (QOne, _) => cons PEol <$> parse_pieces fuel' rest
            | _ => None
            end
          else
            '(a, rest1) ← parse_atom s;
            '(q, rest2) ← parse_quant rest1;
            cons (PAtom a q) <$> parse_pieces fuel' rest2
      end
  end.

Definition parse (pattern : string) : option (list piece) :=
  parse_pieces (String.length pattern) pattern.

Definition atom_accepts (a : atom) (c : ascii) : bool :=
  match a with
  | AChar x => Ascii.eqb x c
  | AAny => negb (Ascii.eqb c newline)
  | ASet negated members => xorb negated (existsb (Ascii.eqb c) members)
  end.

(** [$] without flags: at the very end, or just before a final newline. *)
Definition at_end (s : string) : bool :=
  match s with
  | EmptyString => true
  | String c EmptyString => Ascii.eqb c newline
  | _ => false
  end.

(** Does some prefix of [s] match the pieces?  [bol] tells whether [s]
    still starts at the beginning of the subject. *)
Fixpoint match_here (ps : list piece) (bol : bool) (s : string) : bool :=
  match ps with
  | [] => true
  | PBol :: ps' => bol && match_here ps' bol s
  | PEol :: ps' => at_end s && match_here ps' bol s
  | PAtom a q :: ps' =>
      let one (k : string -> bool) (s0 : string) :=
        match s0 with
        | String c s1 => atom_accepts a c && k s1
        | EmptyString => false
        end in
      let many :=
        fix many (first : bool) (s0 : string) {struct s0} : bool :=
          match_here ps' (first && bol) s0
          || match s0 with
             | String c s1 => atom_accepts a c && many false s1
             | EmptyString => false
             end in
      match q with
      | QOne => one (match_here ps' false) s
      | QOpt => one (match_here ps' false) s || match_here ps' bol s
      | QStar => many true s
      | QPlus => one (many false) s
      end
  end.

(** [re.match(pattern, s)] as a truth value: a match anchored at the
    start of [s]. *)
Definition re_match (pattern s : string) : option bool :=
  ps ← parse pattern; Some (match_here ps true s).

Fixpoint search_from (ps : list piece) (bol : bool) (s : string) : bool :=
  match_here ps bol s
  || match s with
     | String _ s' => search_from ps false s'
     | EmptyString => false
     end.

(** [re.search(pattern, s)] as a truth value: a match starting anywhere. *)
Definition re_search (pattern s : string) : option bool :=
  ps ← parse pattern; Some (search_from ps true s).

End PyRe.

(** ** XML documents as [xml.etree.ElementTree] presents them *)

Local Unset Elimination Schemes.
Inductive Element := Elem {
  tag : string;
  attrib : gmap string string;
  children : list Element
}.
Local Set Elimination Schemes.

Module ElementTree.

(** [ElementTree.Element("manifest")]. *)
Definition empty_manifest : Element := Elem "manifest" ∅ [].

(** [e.findall(t)]: the direct children with tag [t], in document order. *)
Definition findall (t : string) (e : Element) : list Element :=
  filter (λ c, tag c = t) (children e).

(** [e.find(t)]: the first such child. *)
Definition find (t : string) (e : Element) : option Element :=
  head (findall t e).

(** [e.get(k)]. *)
Definition get (k : string) (e : Element) : option string := attrib e !! k.

(** [e.set(k, v)]. *)
Definition set (k v : string) (e : Element) : Element :=
  Elem (tag e) (<[k := v]> (attrib e)) (children e).

(** [e.append(c)]. *)
Definition append (e c : Element) : Element :=
  Elem (tag e) (attrib e) (children e ++ [c]).

End ElementTree.

(** ** JSON records *)

(** An entry of a [lineage.dependencies] file, and the dictionary the
    main program builds for the device repository.  [branch] is the only
    optional key; an entry without ['repository'] or ['target_path']
    makes the script raise [KeyError] and is not represented. *)
Record Dependency := {
  repository : string;
  target_path : string;
  branch : option string
}.

(** An item of the search reply. *)
Record Candidate := {
  name : string;
  branches_url : string;
  tags_url : string
}.

(** An item of a branches or tags reply; only ['name'] is read. *)
Record Branch := { branch_name : string }.

(** ** The environment of a run *)

(** The exceptions the script can meet. *)
Inductive Exn :=
| URLError | ValueError | KeyError | IndexError | AttributeError
| TypeError | ReError | OSError | ParseError.

(** What the script can see of the file system: the XML files that exist
    and parse (every other path makes [ElementTree.parse] raise), the
    [lineage.dependencies] files that exist ([None] for content that
    [json.loads] rejects), and the directories. *)
Record FS := {
  xml_files : gmap string Element;
  dep_files : gmap string (option (list Dependency));
  dirs : gset string
}.

(** What a request yields: an exception, or the decoded JSON. *)
Inductive HttpReply (A : Type) :=
| HttpFail (e : Exn)
| HttpOk (a : A).
Arguments HttpFail {A} e.
Arguments HttpOk {A} a.

(** Everything outside the script: the [re] module, the GitHub API (one
    reply per URL), the effect of a shell command on the file system,
    and the process environment. *)
Record World := {
  re_match : string → string → option bool;
  re_search : string → string → option bool;
  search_reply : string → HttpReply (list Candidate);
  branches_reply : string → HttpReply (list Branch);
  tags_reply : string → HttpReply (list Branch);
  shell : string → FS → FS;
  ROOMSERVICE_BRANCHES : option string
}.

(** ** State, early exits, and the monad the script runs in *)

(** What a run does to the outside, in order: lines on standard output,
    requests, files written, commands run. *)
Inductive Event :=
| Print (line : string)
| HttpGet (url : string)
| WriteFile (path : string)
| System (cmd : string).

Record State := {
  st_fs : FS;
  st_log : list Event
}.

(** [SysExit code] is [sys.exit(code)], [Uncaught e] an exception that
    reaches the top level, [OutOfFuel] a recursion deeper than the bound
    given to the model. *)
Inductive Halt :=
| SysExit (code : option Z)
| Uncaught (e : Exn)
| OutOfFuel.

(** A computation returns a value, or stops; either way in some state. *)
Inductive Res (A : Type) :=
| Ret (a : A) (s : State)
| Halted (h : Halt) (s : State).
Arguments Ret {A} a s.
Arguments Halted {A} h s.

Definition M (A : Type) : Type := State → Res A.

Global Instance M_ret : MRet M := λ A a s, Ret a s.

Global Instance M_bind : MBind M := λ A B f m s,
  match m s with
  | Ret a s' => f a s'
  | Halted h s' => Halted h s'
  end.

Definition halt {A} (h : Halt) : M A := λ s, Halted h s.
Definition raise {A} (e : Exn) : M A := halt (Uncaught e).
Definition sys_exit {A} (code : option Z) : M A := halt (SysExit code).

Definition emit (e : Event) : M unit :=
  λ s, Ret tt {| st_fs := st_fs s; st_log := st_log s ++ [e] |}.
Definition print (line : string) : M unit := emit (Print line).

Definition get_fs : M FS := λ s, Ret (st_fs s) s.
Definition put_fs (fs : FS) : M unit :=
  λ s, Ret tt {| st_fs := fs; st_log := st_log s |}.

Definition lift_reply {A} (r : HttpReply A) : M A :=
  match r with
  | HttpFail e => raise e
  | HttpOk a => mret a
  end.

Definition lift_result {A} (r : Exn + A) : M A :=
  match r with
  | inl e => raise e
  | inr a => mret a
  end.

(** [for x in l: f(x)]. *)
Fixpoint for_each {A} (l : list A) (f : A → M unit) : M unit :=
  match l with
  | [] => mret tt
  | x :: rest => f x;; for_each rest f
  end.

(** ** Manifest store (lines 86-212) *)

Definition local_manifests : string := ".repo/local_manifests".
Definition roomservice_xml : string := ".repo/local_manifests/roomservice.xml".
Definition manifest_xml : string := ".repo/manifest.xml".
Definition lineage_snippet : string := ".repo/manifests/snippets/lineage.xml".

(** [ElementTree.parse(path)] followed by [getroot()]. *)
Definition parse_xml (fs : FS) (path : string) : Exn + Element :=
  match xml_files fs !! path with
  | Some root => inr root
  | None => inl ParseError
  end.

(** The recurring [try: parse ... except: Element("manifest")]. *)
Definition load_or_empty (fs : FS) (path : Exn + string) : Element :=
  match path with
  | inr p =>
      match parse_xml fs p with
      | inr root => root
      | inl _ => ElementTree.empty_manifest
      end
  | inl _ => ElementTree.empty_manifest
  end.

(** How Python formats an optional string inside an f-string. *)
Definition fmt_opt (o : option string) : string := default "None" o.

Definition get_manifest_path (fs : FS) : Exn + string :=
  match parse_xml fs manifest_xml with
  | inl e => inl e
  | inr m =>
      match ElementTree.findall "default" m with
      | _ :: _ => inr manifest_xml
      | [] =>
          match ElementTree.find "include" m with
          | Some inc => inr (".repo/manifests/" +:+ fmt_opt (ElementTree.get "name" inc))
          | None => inl AttributeError
          end
      end
  end.

Definition get_default_revision (fs : FS) : Exn + string :=
  match get_manifest_path fs with
  | inl e => inl e
  | inr path =>
      match parse_xml fs path with
      | inl e => inl e
      | inr m =>
          match ElementTree.findall "default" m with
          | [] => inl IndexError
          | d :: _ =>
              match ElementTree.get "revision" d with
              | None => inl AttributeError
              | Some r =>
                  inr (PyStr.replace "refs/tags/" "" (PyStr.replace "refs/heads/" "" r))
              end
          end
      end
  end.

(** The test repeated three times in [is_in_manifest]: some [project]
    child of the root has this [path] attribute. *)
Definition has_project_path (lm : Element) (projectpath : string) : bool :=
  existsb (λ localpath, bool_decide (ElementTree.get "path" localpath = Some projectpath))
          (ElementTree.findall "project" lm).

Definition is_in_manifest (fs : FS) (projectpath : string) : bool :=
  let lm := load_or_empty fs (inr roomservice_xml) in
  if has_project_path lm projectpath then true
  else
    (* Search in main manifest, too *)
    let lm := load_or_empty fs (get_manifest_path fs) in
    if has_project_path lm projectpath then true
    else
      (* ... and don't forget the lineage snippet *)
      let lm := load_or_empty fs (inr lineage_snippet) in
      has_project_path lm projectpath.

(** Truthiness of an optional string ([None] and [""] are false). *)
Definition truthy_opt (o : option string) : bool :=
  match o with
  | Some s => PyStr.truthy s
  | None => false
  end.

(** Lines 207-212: [indent], which only touches the white space between
    elements (white space [Element] does not record), then
    [ElementTree.tostring] and [open(path, 'w')] with [f.write(...)].
    The file system of the model records for a file the document it
    parses to, so the write records the document itself; that is what
    the real write gives in the directory line 87 has created and for a
    document all of whose strings XML can carry. *)
Definition write_xml (path : string) (doc : Element) : M unit :=
  fs ← get_fs;
  put_fs {| xml_files := <[path := doc]> (xml_files fs);
            dep_files := dep_files fs;
            dirs := dirs fs |};;
  emit (WriteFile path).

(** The element built at lines 188-203 for one record. *)
Definition new_project (repo : Dependency) : Element :=
  Elem "project"
       (<["path" := target_path repo]>
          (<["remote" := "github"]>
             (<["name" := "LineageOS/" +:+ repository repo]> ∅)))
       [].

(** The loop of lines 179-205; [lm] is the document in memory. *)
Fixpoint add_each (repositories : list Dependency) (fallback_branch : option string)
    (lm : Element) : M Element :=
  match repositories with
  | [] => mret lm
  | repo :: rest =>
      let repo_name := repository repo in
      let repo_target := target_path repo in
      print ("Checking if " +:+ repo_target +:+ " is fetched from " +:+ repo_name);;
      fs ← get_fs;
      if is_in_manifest fs repo_target then
        print ("LineageOS/" +:+ repo_name +:+ " already fetched to " +:+ repo_target);;
        add_each rest fallback_branch lm
      else
        print ("Adding dependency: LineageOS/" +:+ repo_name +:+ " -> " +:+ repo_target);;
        project ←
          match branch repo with
          | Some b => mret (ElementTree.set "revision" b (new_project repo))
          | None =>
              if truthy_opt fallback_branch then
                print ("Using fallback branch " +:+ fmt_opt fallback_branch
                       +:+ " for " +:+ repo_name);;
                mret (ElementTree.set "revision" (fmt_opt fallback_branch) (new_project repo))
              else
                print ("Using default branch for " +:+ repo_name);;
                mret (new_project repo)
          end;
        add_each rest fallback_branch (ElementTree.append lm project)
  end.

Definition add_to_manifest (repositories : list Dependency)
    (fallback_branch : option string) : M unit :=
  fs ← get_fs;
  let lm := load_or_empty fs (inr roomservice_xml) in
  lm' ← add_each repositories fallback_branch lm;
  write_xml roomservice_xml lm'.

(** Line 90, defined by the script and never called.  It goes through
    [lm.getchildren()], a method [Element] has up to Python 3.8 and no
    longer has from Python 3.9 on; [getchildren] says whether the
    interpreter still has it.  Without it the call raises
    [AttributeError] before any child is looked at. *)
Definition exists_in_tree (getchildren : bool) (lm : Element) (path : string)
    : Exn + bool :=
  if getchildren then
    (fix any (cs : list Element) : Exn + bool :=
       match cs with
       | [] => inr false
       | child :: rest =>
           match attrib child !! "path" with
           | None => inl KeyError
           | Some p => if bool_decide (p = path) then inr true else any rest
           end
       end) (children lm)
  else inl AttributeError.

(** ** Sync trigger, dependency walker, revision resolver, main program *)

Section Program.

Variable W : World.

(** [os.system(cmd)]; the exit status is not looked at. *)
Definition os_system (cmd : string) : M unit :=
  emit (System cmd);;
  fs ← get_fs;
  put_fs (shell W cmd fs).

(** The loop of lines 225-231 over the parsed dependency file.  The
    three results are [fetch_list], [syncable_repos] and
    [verify_repos], each in the order the loop appends to it. *)
Fixpoint scan_dependencies (fs : FS) (dependencies : list Dependency)
    : list Dependency * list string * list string :=
  match dependencies with
  | [] => ([], [], [])
  | dependency :: rest =>
      let '(fetch_list, syncable_repos, verify_repos) := scan_dependencies fs rest in
      let t := target_path dependency in
      let absent := negb (is_in_manifest fs t) in
      let missing := bool_decide (t ∉ dirs fs) in
      ((if absent then [dependency] else []) ++ fetch_list,
       (if absent then [t] else []) ++ (if missing then [t] else []) ++ syncable_repos,
       t :: verify_repos)
  end.

Definition is_nil {A} (l : list A) : bool :=
  match l with [] => true | _ => false end.

(** The body of [fetch_dependencies] (lines 214-244), with the function
    it calls at line 244 as the parameter [self]. *)
Definition fetch_dependencies_body (self : string → option string → M unit)
    (repo_path : string) (fallback_branch : option string) : M unit :=
  print ("Looking for dependencies in " +:+ repo_path);;
  let dependencies_path := repo_path +:+ "/lineage.dependencies" in
  fs ← get_fs;
  '(syncable_repos, verify_repos) ←
    match dep_files fs !! dependencies_path with
    | Some content =>
        dependencies ←
          match content with
          | Some ds => mret ds
          | None => raise ValueError
          end;
        let '(fetch_list, syncable_repos, verify_repos) :=
          scan_dependencies fs dependencies in
        (if is_nil fetch_list then mret tt
         else print "Adding dependencies to manifest";;
              add_to_manifest fetch_list fallback_branch);;
        mret (syncable_repos, verify_repos)
    | None =>
        print (repo_path +:+ " has no additional dependencies.");;
        mret ([], [])
    end;
  (if is_nil syncable_repos then mret tt
   else print "Syncing dependencies";;
        os_system ("repo sync --force-sync " +:+ PyStr.join " " syncable_repos));;
  for_each verify_repos (λ deprepo, self deprepo None).

(** [fuel] bounds the depth of the recursion; the script itself has no
    bound. *)
Fixpoint fetch_dependencies (fuel : nat) (repo_path : string)
    (fallback_branch : option string) : M unit :=
  match fuel with
  | 0 => halt OutOfFuel
  | S fuel' =>
      fetch_dependencies_body (fetch_dependencies fuel') repo_path fallback_branch
  end.

(** Line 247. *)
Definition has_branch (branches : list Branch) (revision : string) : bool :=
  bool_decide (revision ∈ branch_name <$> branches).

(** Line 284: [list(filter(bool, value.split(' ')))]. *)
Definition fallbacks_of (value : string) : list string :=
  List.filter PyStr.truthy (PyStr.split " " value).

(** Lines 285-289: the first fallback the repository has. *)
Fixpoint first_fallback (result : list Branch) (fallbacks : list string)
    : M (option string) :=
  match fallbacks with
  | [] => mret None
  | fallback :: rest =>
      if has_branch result fallback then
        print ("Using fallback branch: " +:+ fallback);;
        mret (Some fallback)
      else first_fallback result rest
  end.

(** Lines 268-276: the branch list, extended by the tag list when the
    default revision is not a branch. *)
Definition fetch_refs (repo : Candidate) (default_revision : string)
    : M (list Branch) :=
  let url := PyStr.replace "{/branch}" "" (branches_url repo) in
  emit (HttpGet url);;
  result ← lift_reply (branches_reply W url);
  (* Try tags, too, since that's what releases use *)
  if has_branch result default_revision then mret result
  else
    let url := PyStr.replace "{/tag}" "" (tags_url repo) in
    emit (HttpGet url);;
    tags ← lift_reply (tags_reply W url);
    mret (result ++ tags).

(** Lines 281-299: the value of [fallback_branch] that reaches
    [add_to_manifest], or the exit at line 299. *)
Definition choose_fallback (repo_name default_revision : string)
    (result : list Branch) : M (option string) :=
  if has_branch result default_revision then mret None
  else
    fallback_branch ←
      (if truthy_opt (ROOMSERVICE_BRANCHES W) then
         first_fallback result (fallbacks_of (fmt_opt (ROOMSERVICE_BRANCHES W)))
       else mret None);
    if truthy_opt fallback_branch then mret fallback_branch
    else
      print ("Default revision " +:+ default_revision +:+ " not found in "
             +:+ repo_name +:+ ". Bailing.");;
      print "Branches found:";;
      for_each (branch_name <$> result) print;;
      print "Use the ROOMSERVICE_BRANCHES environment variable to specify a list of fallback branches.";;
      sys_exit None.

(** Lines 268-299 together. *)
Definition resolve_revision (repo : Candidate) (default_revision : string)
    : M (option string) :=
  result ← fetch_refs repo default_revision;
  choose_fallback (name repo) default_revision result.

(** Lines 126-137. *)
Definition get_from_manifest (fs : FS) (device : string) : Exn + option string :=
  let lm := load_or_empty fs (inr roomservice_xml) in
  (fix next (ps : list Element) : Exn + option string :=
     match ps with
     | [] => inr None
     | localpath :: rest =>
         let pattern := "android_device_.*_" +:+ device +:+ "$" in
         match ElementTree.get "name" localpath with
         | None => inl TypeError
         | Some n =>
             match re_search W pattern n with
             | None => inl ReError
             | Some true => inr (ElementTree.get "path" localpath)
             | Some false => next rest
             end
         end
     end) (ElementTree.findall "project" lm).

(** The pattern of line 260. *)
Definition device_pattern (device : string) : string :=
  "^android_device_[^_]*_" +:+ device +:+ "$".

(** Lines 261-309: what is done with the repository that matched. *)
Definition process_repository (fuel : nat) (device : string) (repo : Candidate)
    : M unit :=
  let repo_name := name repo in
  print ("Found repository: " +:+ repo_name);;
  let manufacturer :=
    PyStr.replace ("_" +:+ device) "" (PyStr.replace "android_device_" "" repo_name) in
  fs ← get_fs;
  default_revision ← lift_result (get_default_revision fs);
  print ("Default revision: " +:+ default_revision);;
  print "Checking branch info";;
  fallback_branch ← resolve_revision repo default_revision;
  let repo_path := "device/" +:+ manufacturer +:+ "/" +:+ device in
  let adding := {| repository := repo_name; target_path := repo_path; branch := None |} in
  add_to_manifest [adding] fallback_branch;;
  print "Syncing repository to retrieve project.";;
  os_system ("repo sync --force-sync " +:+ repo_path);;
  print "Repository synced!";;
  fetch_dependencies fuel repo_path fallback_branch;;
  print "Done";;
  sys_exit None.

(** Lines 258-260: the first repository whose name matches is
    processed, and processing never returns to the loop. *)
Fixpoint find_repository (fuel : nat) (device : string)
    (repositories : list Candidate) : M unit :=
  match repositories with
  | [] => mret tt
  | repo :: rest =>
      match re_match W (device_pattern device) (name repo) with
      | None => raise ReError
      | Some true => process_repository fuel device repo
      | Some false => find_repository fuel device rest
      end
  end.

(** Lines 70-84. *)
Definition search_repositories (device : string) : M (list Candidate) :=
  let url := "https://api.github.com/search/repositories?q=" +:+ device
             +:+ "+user:LineageOS+in:name+fork:true" in
  emit (HttpGet url);;
  match search_reply W url with
  | HttpFail URLError => print "Failed to search GitHub";; sys_exit (Some 1%Z)
  | HttpFail ValueError =>
      print "Failed to parse return data from GitHub";; sys_exit (Some 1%Z)
  | HttpFail e => raise e
  | HttpOk items => mret items
  end.

(** Line 87. *)
Definition ensure_local_manifests : M unit :=
  fs ← get_fs;
  if bool_decide (local_manifests ∈ dirs fs) then mret tt
  else put_fs {| xml_files := xml_files fs;
                 dep_files := dep_files fs;
                 dirs := {[ ".repo"; local_manifests ]} ∪ dirs fs |}.

(** The module body, top to bottom.  [product] is [sys.argv[1]] and
    [depsonly] is [sys.argv[2]] when present.  The credential lookup of
    lines 57-68 is left out: it only decides a request header, and
    whatever goes wrong in it is caught on the spot. *)
Definition main (fuel : nat) (product : string) (depsonly : option string) : M unit :=
  let device := device product in
  (if truthy_opt depsonly then mret tt
   else print ("Device " +:+ device +:+ " not found. Attempting to retrieve device repository from LineageOS Github (http://github.com/LineageOS)."));;
  repositories ←
    (if truthy_opt depsonly then mret [] else search_repositories device);
  ensure_local_manifests;;
  (if truthy_opt depsonly then
     fs ← get_fs;
     repo_path ← lift_result (get_from_manifest fs device);
     (if truthy_opt repo_path then fetch_dependencies fuel (fmt_opt repo_path) None
      else print "Trying dependencies-only mode on a non-existing device tree?");;
     sys_exit None
   else find_repository fuel device repositories);;
  print ("Repository for " +:+ device +:+ " not found in the LineageOS Github repository list. If this is in error, you may need to manually add it to your local_manifests/roomservice.xml.").

End Program.

(** ** The pretty-printer (lines 92-105) *)

(** An element with the two pieces of text [indent] works on: [text],
    before the first child, and [tail], after the closing tag. *)
Local Unset Elimination Schemes.
Inductive Node := MkNode {
  n_tag : string;
  n_attrib : gmap string string;
  n_text : option string;
  n_tail : option string;
  n_children : list Node
}.
Local Set Elimination Schemes.

Module PyText.

(** [c.isspace()] for a code point below 256. *)
Definition isspace (c : ascii) : bool :=
  let n := nat_of_ascii c in
  (Nat.leb 9 n && Nat.leb n 13) || (Nat.leb 28 n && Nat.leb n 31)
  || Nat.eqb n 32 || Nat.eqb n 133 || Nat.eqb n 160.

(** [not t or not t.strip()], for an optional text. *)
Definition blank (t : option string) : bool :=
  match t with
  | None => true
  | Some s => forallb isspace (list_ascii_of_string s)
  end.

(** [n * s]. *)
Fixpoint times (n : nat) (s : string) : string :=
  match n with
  | 0 => ""
  | S n' => s +:+ times n' s
  end.

End PyText.

(** The last statement of the first branch: the tail of the last child,
    when blank, becomes [i]. *)
Fixpoint retail_last (i : string) (cs : list Node) : list Node :=
  match cs with
  | [] => []
  | [c] =>
      [if PyText.blank (n_tail c)
       then MkNode (n_tag c) (n_attrib c) (n_text c) (Some i) (n_children c)
       else c]
  | c :: rest => c :: retail_last i rest
  end.

(** [indent(elem, level)], returning the element it leaves behind. *)
Fixpoint indent (level : nat) (elem : Node) : Node :=
  let i := String PyRe.newline (PyText.times level "  ") in
  match elem with
  | MkNode t a text tail cs =>
      match cs with
      | _ :: _ =>
          let text' := if PyText.blank text then Some (i +:+ "  ") else text in
          let tail' := if PyText.blank tail then Some i else tail in
          MkNode t a text' tail' (retail_last i (map (indent (S level)) cs))
      | [] =>
          match level with
          | S _ => if PyText.blank tail then MkNode t a text (Some i) [] else elem
          | 0 => elem
          end
      end
  end.

(** * Specification-level definitions

    Names for what the script computes along the way, the properties the
    specification speaks of, and the concrete runs used as examples. *)

Abbreviation chars := list_ascii_of_string.

(** The three documents [is_in_manifest] consults, as it loads them. *)
Definition local_document (fs : FS) : Element := load_or_empty fs (inr roomservice_xml).
Definition main_document (fs : FS) : Element := load_or_empty fs (get_manifest_path fs).
Definition snippet_document (fs : FS) : Element := load_or_empty fs (inr lineage_snippet).

(** A document holds an entry for [path]: one of the children of its
    root is a [project] element whose [path] attribute is that string. *)
Definition has_entry (doc : Element) (path : string) : Prop :=
  ∃ e, e ∈ children doc ∧ tag e = "project" ∧ attrib e !! "path" = Some path.

(** The file at [path] exists and is well-formed XML, and [doc] is the
    document in it. *)
Definition file_holds (fs : FS) (path : string) (doc : Element) : Prop :=
  xml_files fs !! path = Some doc.

(** [e] is the first child of [doc] with tag [t]. *)
Definition first_child (t : string) (doc e : Element) : Prop :=
  ∃ pre post, children doc = pre ++ e :: post
              ∧ tag e = t ∧ Forall (λ c, tag c ≠ t) pre.

(** The file that serves as main manifest: [.repo/manifest.xml] when one
    of its children is a [default] element; when none is, the file its
    first [include] child names, under [.repo/manifests/] (an [include]
    without a name is formatted as [None]). *)
Inductive main_manifest_file (fs : FS) : string → Prop :=
| main_manifest_itself (m d : Element) :
    file_holds fs manifest_xml m →
    d ∈ children m → tag d = "default" →
    main_manifest_file fs manifest_xml
| main_manifest_included (m inc : Element) :
    file_holds fs manifest_xml m →
    (∀ d, d ∈ children m → tag d ≠ "default") →
    first_child "include" m inc →
    main_manifest_file fs
      (".repo/manifests/" +:+ default "None" (attrib inc !! "name")).

(** The three manifest sources, as far as they are there to be read: the
    local roomservice manifest, the main manifest, the lineage snippet. *)
Inductive manifest_source (fs : FS) : Element → Prop :=
| source_local (doc : Element) :
    file_holds fs roomservice_xml doc → manifest_source fs doc
| source_main (path : string) (doc : Element) :
    main_manifest_file fs path → file_holds fs path doc → manifest_source fs doc
| source_snippet (doc : Element) :
    file_holds fs lineage_snippet doc → manifest_source fs doc.

(** The file system once the local manifest has been overwritten. *)
Definition with_local (fs : FS) (doc : Element) : FS :=
  {| xml_files := <[roomservice_xml := doc]> (xml_files fs);
     dep_files := dep_files fs;
     dirs := dirs fs |}.

(** The element appended for a record, revision included. *)
Definition project_for (fallback_branch : option string) (repo : Dependency) : Element :=
  match branch repo with
  | Some b => ElementTree.set "revision" b (new_project repo)
  | None =>
      if truthy_opt fallback_branch
      then ElementTree.set "revision" (fmt_opt fallback_branch) (new_project repo)
      else new_project repo
  end.

(** The records of a batch that get an element: those whose path
    [is_in_manifest] does not find on disk. *)
Definition absent (fs : FS) (repositories : list Dependency) : list Dependency :=
  filter (λ repo, is_in_manifest fs (target_path repo) = false) repositories.

Definition added (fs : FS) (fallback_branch : option string)
    (repositories : list Dependency) : list Element :=
  project_for fallback_branch <$> absent fs repositories.

(** The lines [add_to_manifest] prints for a batch. *)
Fixpoint add_log (fs : FS) (fallback_branch : option string)
    (repositories : list Dependency) : list Event :=
  match repositories with
  | [] => []
  | repo :: rest =>
      let repo_name := repository repo in
      let repo_target := target_path repo in
      Print ("Checking if " +:+ repo_target +:+ " is fetched from " +:+ repo_name)
      :: (if is_in_manifest fs repo_target then
            [Print ("LineageOS/" +:+ repo_name +:+ " already fetched to " +:+ repo_target)]
          else
            Print ("Adding dependency: LineageOS/" +:+ repo_name +:+ " -> " +:+ repo_target)
            :: match branch repo with
               | Some _ => []
               | None =>
                   if truthy_opt fallback_branch then
                     [Print ("Using fallback branch " +:+ fmt_opt fallback_branch
                             +:+ " for " +:+ repo_name)]
                   else [Print ("Using default branch for " +:+ repo_name)]
               end)
         ++ add_log fs fallback_branch rest
  end.

(** A document with more children at the end. *)
Definition extend (lm : Element) (new : list Element) : Element :=
  Elem (tag lm) (attrib lm) (children lm ++ new).

(** The paths a document has entries for, one item per entry. *)
Definition project_paths (doc : Element) : list string :=
  omap (ElementTree.get "path") (ElementTree.findall "project" doc).

(** The entries of the three documents together. *)
Definition all_paths (fs : FS) : list string :=
  project_paths (local_document fs)
  ++ project_paths (main_document fs)
  ++ project_paths (snippet_document fs).

(** The invariant of the data model: at most one entry per path across
    the local manifest and the two external documents. *)
Definition unique_paths (fs : FS) : Prop := NoDup (all_paths fs).

(** How many entries the three documents hold for [path]. *)
Definition entry_count (fs : FS) (path : string) : nat :=
  length (filter (λ q, q = path) (all_paths fs)).

(** Nothing on disk, nothing printed yet. *)
Definition empty_fs : FS := {| xml_files := ∅; dep_files := ∅; dirs := ∅ |}.
Definition empty_state : State := {| st_fs := empty_fs; st_log := [] |}.

(** A tree right after line 87: the directory of the local manifests is
    there, and no manifest file yet. *)
Definition bare_checkout : State :=
  {| st_fs := {| xml_files := ∅;
                 dep_files := ∅;
                 dirs := {[ ".repo"; local_manifests ]} |};
     st_log := [] |}.

(** A tree after line 87 whose lineage snippet lists [vendor/foo], with
    no local manifest. *)
Definition snippet_checkout : State :=
  {| st_fs := {| xml_files :=
                   {[ lineage_snippet :=
                        Elem "manifest" ∅
                             [Elem "project"
                                   {[ "path" := "vendor/foo";
                                      "name" := "LineageOS/android_vendor_foo" ]} []] ]};
                 dep_files := ∅;
                 dirs := {[ ".repo"; local_manifests ]} |};
     st_log := [] |}.

(** The record of the dependency scenario, and a second record for the
    same path. *)
Definition vendor_foo : Dependency :=
  {| repository := "android_vendor_foo"; target_path := "vendor/foo"; branch := None |}.

Definition vendor_foo_fork : Dependency :=
  {| repository := "android_vendor_foo_fork"; target_path := "vendor/foo"; branch := None |}.

(** A record that names its own branch. *)
Definition pinned_bar : Dependency :=
  {| repository := "android_vendor_bar"; target_path := "vendor/bar";
     branch := Some "main" |}.

(** Events can be compared, so membership in a log is decidable. *)
Global Instance Event_eq_dec : EqDecision Event.
Proof. solve_decision. Defined.

(** What the loop of lines 225-231 computes. *)
Definition sync_list (fs : FS) (dependencies : list Dependency) : list string :=
  dependencies ≫= λ dependency,
    let t := target_path dependency in
    (if is_in_manifest fs t then [] else [t])
    ++ (if bool_decide (t ∉ dirs fs) then [t] else []).

(** The command of line 241. *)
Definition sync_command (paths : list string) : string :=
  "repo sync --force-sync " +:+ PyStr.join " " paths.

(** The state in which the walker, called on [device/acme/widget] in
    state [s], makes its call for [vendor/foo]. *)
Definition after_vendor_foo (W : World) (fallback_branch : option string)
    (s : State) : State :=
  {| st_fs :=
       shell W "repo sync --force-sync vendor/foo vendor/foo"
         (with_local (st_fs s)
            (extend (local_document (st_fs s))
                    [project_for fallback_branch vendor_foo]));
     st_log :=
       st_log s
       ++ [Print "Looking for dependencies in device/acme/widget";
           Print "Adding dependencies to manifest";
           Print "Checking if vendor/foo is fetched from android_vendor_foo";
           Print "Adding dependency: LineageOS/android_vendor_foo -> vendor/foo";
           Print (if truthy_opt fallback_branch
                  then "Using fallback branch " +:+ fmt_opt fallback_branch
                       +:+ " for android_vendor_foo"
                  else "Using default branch for android_vendor_foo");
           WriteFile roomservice_xml;
           Print "Syncing dependencies";
           System "repo sync --force-sync vendor/foo vendor/foo"] |}.

(** A run without network: every request fails, the shell changes
    nothing, and [re] is the model above. *)
Definition offline : World :=
  {| re_match := PyRe.re_match;
     re_search := PyRe.re_search;
     search_reply := λ _, HttpFail URLError;
     branches_reply := λ _, HttpFail URLError;
     tags_reply := λ _, HttpFail URLError;
     shell := λ _ fs, fs;
     ROOMSERVICE_BRANCHES := None |}.

(** The device tree of the scenario, checked out, with its dependency
    file; nothing else on disk. *)
Definition widget_state : State :=
  {| st_fs := {| xml_files := ∅;
                 dep_files := {[ "device/acme/widget/lineage.dependencies"
                                 := (Some [vendor_foo]) ]};
                 dirs := {[ "device/acme/widget" ]} |};
     st_log := [] |}.

(** The scenario's device tree once [vendor/foo] is in the local
    manifest. *)
Definition widget_synced : State :=
  {| st_fs := with_local (st_fs widget_state)
                (extend ElementTree.empty_manifest [project_for None vendor_foo]);
     st_log := [] |}.

(** The outcome of resolution, in the words of the specification. *)
Inductive Resolution :=
| UseDefault
| UseFallback (revision : string)
| Unresolved.

(** The three tiers as the specification lists them: the default
    revision if it is a branch name; else the default revision if it is a
    branch or tag name; else the first fallback that is a branch or tag
    name; else nothing. *)
Definition resolution_spec (default_revision : string)
    (branch_names tag_names fallback_names : list string) : Resolution :=
  if bool_decide (default_revision ∈ branch_names) then UseDefault
  else if bool_decide (default_revision ∈ branch_names ++ tag_names) then UseDefault
  else match List.find (λ f, bool_decide (f ∈ branch_names ++ tag_names))
                       fallback_names with
       | Some f => UseFallback f
       | None => Unresolved
       end.

(** The ordered fallback list the environment provides. *)
Definition env_fallbacks (value : option string) : list string :=
  match value with
  | Some v => fallbacks_of v
  | None => []
  end.

(** What the script prints before it gives up (lines 292-298). *)
Definition bail_out_lines (default_revision repo_name : string)
    (names : list string) : list Event :=
  [Print ("Default revision " +:+ default_revision +:+ " not found in "
          +:+ repo_name +:+ ". Bailing.");
   Print "Branches found:"]
  ++ (Print <$> names)
  ++ [Print "Use the ROOMSERVICE_BRANCHES environment variable to specify a list of fallback branches."].

(** A state with more events at the end of its log. *)
Definition log_more (s : State) (events : list Event) : State :=
  {| st_fs := st_fs s; st_log := st_log s ++ events |}.

(** The two URLs of lines 268 and 274. *)
Definition branches_endpoint (repo : Candidate) : string :=
  PyStr.replace "{/branch}" "" (branches_url repo).

Definition tags_endpoint (repo : Candidate) : string :=
  PyStr.replace "{/tag}" "" (tags_url repo).

(** How the script carries a resolution on: [fallback_branch] stays
    [None] when the default revision is usable, is the fallback (after a
    line of output) when one was picked, and the script exits when there
    is none. *)
Definition resolved (r : Resolution) (default_revision repo_name : string)
    (names : list string) (s : State) : Res (option string) :=
  match r with
  | UseDefault => Ret None s
  | UseFallback f => Ret (Some f) (log_more s [Print ("Using fallback branch: " +:+ f)])
  | Unresolved =>
      Halted (SysExit None) (log_more s (bail_out_lines default_revision repo_name names))
  end.

(** [names] are the fields of the value of the variable: strings free of
    spaces, which the value lists with one space between neighbours.  An
    unset variable has no field. *)
Definition space_free (n : string) : Prop := " "%char ∉ chars n.

Definition space_separated (value : option string) (names : list string) : Prop :=
  Forall space_free names
  ∧ match value with
    | Some v => v = String.concat " " names
    | None => names = []
    end.

(** A result other than [sys.exit] with an explicit code. *)
Definition benign {A} (r : Res A) : Prop :=
  match r with
  | Halted (SysExit (Some _)) _ => False
  | _ => True
  end.

(** A computation all of whose results are of that kind. *)
Definition Benign {A} (m : M A) : Prop := ∀ s, benign (m s).

(** The URL of line 72 and the line printed at line 51. *)
Definition search_url (device : string) : string :=
  "https://api.github.com/search/repositories?q=" +:+ device
  +:+ "+user:LineageOS+in:name+fork:true".

Definition announce (device : string) : Event :=
  Print ("Device " +:+ device +:+ " not found. Attempting to retrieve device repository from LineageOS Github (http://github.com/LineageOS).").

(** The search has failed in one of the two ways lines 77-82 handle. *)
Definition search_fails (W : World) (device : string) : Prop :=
  search_reply W (search_url device) = HttpFail URLError
  ∨ search_reply W (search_url device) = HttpFail ValueError.

(** The file system after line 87. *)
Definition ensured (fs : FS) : FS :=
  if bool_decide (local_manifests ∈ dirs fs) then fs
  else {| xml_files := xml_files fs;
          dep_files := dep_files fs;
          dirs := {[ ".repo"; local_manifests ]} ∪ dirs fs |}.

(** The line printed at line 311. *)
Definition not_found_line (device : string) : string :=
  "Repository for " +:+ device +:+ " not found in the LineageOS Github repository list. If this is in error, you may need to manually add it to your local_manifests/roomservice.xml.".

(** Two search results, only the first of them a device repository. *)
Definition bacon_repo : Candidate :=
  {| name := "android_device_oneplus_bacon";
     branches_url := "https://api.github.com/repos/LineageOS/android_device_oneplus_bacon/branches{/branch}";
     tags_url := "https://api.github.com/repos/LineageOS/android_device_oneplus_bacon/tags" |}.

Definition bacon_kernel_repo : Candidate :=
  {| name := "android_kernel_oneplus_bacon";
     branches_url := "https://api.github.com/repos/LineageOS/android_kernel_oneplus_bacon/branches{/branch}";
     tags_url := "https://api.github.com/repos/LineageOS/android_kernel_oneplus_bacon/tags" |}.

(** A GitHub that knows the device repository, with one branch and one
    tag, neither of them the default revision nor a fallback. *)
Definition github : World :=
  {| re_match := PyRe.re_match;
     re_search := PyRe.re_search;
     search_reply := λ _, HttpOk [bacon_kernel_repo; bacon_repo];
     branches_reply := λ _, HttpOk [{| branch_name := "main" |}];
     tags_reply := λ _, HttpOk [{| branch_name := "lineage-20-release" |}];
     shell := λ _ fs, fs;
     ROOMSERVICE_BRANCHES := Some "staging lineage-20" |}.

(** The same GitHub, with a fallback list that has two spaces in a row
    and names the tag of the repository in second place. *)
Definition github_spaced : World :=
  {| re_match := PyRe.re_match;
     re_search := PyRe.re_search;
     search_reply := λ _, HttpOk [bacon_kernel_repo; bacon_repo];
     branches_reply := λ _, HttpOk [{| branch_name := "main" |}];
     tags_reply := λ _, HttpOk [{| branch_name := "lineage-20-release" |}];
     shell := λ _ fs, fs;
     ROOMSERVICE_BRANCHES := Some "staging  lineage-20-release main" |}.

(** A reply in which a branch has the empty name, and a fallback list
    that starts with a space. *)
Definition unnamed_branch : World :=
  {| re_match := PyRe.re_match;
     re_search := PyRe.re_search;
     search_reply := λ _, HttpOk [bacon_repo];
     branches_reply := λ _, HttpOk [{| branch_name := "" |}];
     tags_reply := λ _, HttpOk [];
     shell := λ _ fs, fs;
     ROOMSERVICE_BRANCHES := Some " lineage-20" |}.

(** A checkout whose main manifest pins [refs/heads/lineage-20]. *)
Definition checkout : State :=
  {| st_fs :=
       {| xml_files :=
            {[ manifest_xml :=
                 Elem "manifest" ∅
                      [Elem "remote" {[ "name" := "github" ]} [];
                       Elem "default" {[ "revision" := "refs/heads/lineage-20" ]} []] ]};
          dep_files := ∅;
          dirs := {[ ".repo" ]} |};
     st_log := [] |}.

(** A string taken character by character, each standing for itself. *)
Definition literal_pieces (s : string) : list PyRe.piece :=
  (λ c, PyRe.PAtom (PyRe.AChar c) PyRe.QOne) <$> chars s.

(** The fixed frame of the pattern of line 260, up to the device name:
    [^android_device_[^_]*_]. *)
Definition frame_pieces : list PyRe.piece :=
  [PyRe.PBol] ++ literal_pieces "android_device_"
  ++ [PyRe.PAtom (PyRe.ASet true ["_"%char]) PyRe.QStar;
      PyRe.PAtom (PyRe.AChar "_") PyRe.QOne].

(** The filter with the device segment compared literally: the frame,
    then the characters of the device name as they are, then the end. *)
Definition literal_device_filter (device name : string) : bool :=
  PyRe.match_here (frame_pieces ++ literal_pieces device ++ [PyRe.PEol]) true name.

(** The filter of the script, [re] being the model above. *)
Definition device_filter (device name : string) : option bool :=
  PyRe.re_match (device_pattern device) name.

(** Two repositories for the device name [a.b]: one that only looks
    like it to a pattern, and the one named after it. *)
Definition lookalike_repo : Candidate :=
  {| name := "android_device_acme_aXb";
     branches_url := "https://api.github.com/repos/LineageOS/android_device_acme_aXb/branches{/branch}";
     tags_url := "https://api.github.com/repos/LineageOS/android_device_acme_aXb/tags" |}.

Definition dotted_repo : Candidate :=
  {| name := "android_device_acme_a.b";
     branches_url := "https://api.github.com/repos/LineageOS/android_device_acme_a.b/branches{/branch}";
     tags_url := "https://api.github.com/repos/LineageOS/android_device_acme_a.b/tags" |}.

(** Device names without pattern syntax. *)
Definition plain (s : string) : Prop := Forall (λ c, PyRe.special c = false) (chars s).

(** The same duplicate reached through the walker: a dependency file that
    lists [vendor/foo] twice. *)
Definition twice_listed : State :=
  {| st_fs := {| xml_files := ∅;
                 dep_files := {[ "device/acme/widget/lineage.dependencies"
                                 := (Some [vendor_foo; vendor_foo_fork]) ]};
                 dirs := {[ "device/acme/widget" ]} |};
     st_log := [] |}.

(** The scenario's device tree with [vendor/foo] recorded and checked
    out. *)
Definition widget_complete : State :=
  {| st_fs := {| xml_files := xml_files (st_fs widget_synced);
                 dep_files := dep_files (st_fs widget_synced);
                 dirs := {[ "device/acme/widget"; "vendor/foo" ]} |};
     st_log := [] |}.

(** A record that sends [vendor/foo] back to itself, and a tree in which
    that repository, recorded and checked out, declares it. *)
Definition vendor_foo_loop : State :=
  {| st_fs := {| xml_files := xml_files (st_fs widget_synced);
                 dep_files := {[ "vendor/foo/lineage.dependencies"
                                 := (Some [vendor_foo]) ]};
                 dirs := {[ "vendor/foo" ]} |};
     st_log := [] |}.

(** The events the dependency walker is made of: lines of output, writes
    of the local manifest, and [repo sync] commands; no request. *)
Definition walker_event (e : Event) : Prop :=
  match e with
  | Print _ => True
  | WriteFile path => path = roomservice_xml
  | System cmd => PyStr.startswith "repo sync --force-sync " cmd = true
  | HttpGet _ => False
  end.

(** A way of stopping other than [sys.exit]. *)
Definition not_exit (h : Halt) : Prop :=
  match h with
  | SysExit _ => False
  | _ => True
  end.

(** A way of stopping other than [sys.exit] with an explicit code. *)
Definition not_exit_code (h : Halt) : Prop :=
  match h with
  | SysExit (Some _) => False
  | _ => True
  end.

(** [s'] has the log of [s] and then only events of kind [P]. *)
Definition adds_only (P : Event → Prop) (s s' : State) : Prop :=
  ∃ new, st_log s' = st_log s ++ new ∧ Forall P new.

(** A computation that returns only if [R] holds, stops only in ways [H]
    allows, and produces only events of kind [P]. *)
Definition confined (R : Prop) (H : Halt → Prop) (P : Event → Prop) {A} (m : M A) : Prop :=
  ∀ s, match m s with
       | Ret _ s' => R ∧ adds_only P s s'
       | Halted h s' => H h ∧ adds_only P s s'
       end.

(** The same GitHub, where the device repository has the default
    revision as a branch. *)
Definition github_with_branch : World :=
  {| re_match := PyRe.re_match;
     re_search := PyRe.re_search;
     search_reply := λ _, HttpOk [bacon_kernel_repo; bacon_repo];
     branches_reply := λ _, HttpOk [{| branch_name := "main" |};
                                    {| branch_name := "lineage-20" |}];
     tags_reply := λ _, HttpFail URLError;
     shell := λ _ fs, fs;
     ROOMSERVICE_BRANCHES := None |}.

(** The pattern of line 135. *)
Definition local_pattern (device : string) : string :=
  "android_device_.*_" +:+ device +:+ "$".

(** The path the main program derives for a repository (lines 263 and
    278), and the record it builds at line 279. *)
Definition repo_path_of (device repo_name : string) : string :=
  "device/"
  +:+ PyStr.replace ("_" +:+ device) "" (PyStr.replace "android_device_" "" repo_name)
  +:+ "/" +:+ device.

Definition adding_of (device repo_name : string) : Dependency :=
  {| repository := repo_name;
     target_path := repo_path_of device repo_name;
     branch := None |}.

(** A local manifest that records the device tree of the scenario. *)
Definition widget_recorded : State :=
  {| st_fs :=
       {| xml_files :=
            {[ roomservice_xml :=
                 Elem "manifest" ∅
                      [Elem "project"
                            {[ "path" := "vendor/foo";
                               "name" := "LineageOS/android_vendor_foo" ]} [];
                       Elem "project"
                            {[ "path" := "device/acme/widget";
                               "name" := "LineageOS/android_device_acme_widget" ]} []] ]};
          dep_files := ∅;
          dirs := {[ "device/acme/widget" ]} |};
     st_log := [] |}.

(** [old in s], for strings. *)
Fixpoint occurs_in (old s : string) : bool :=
  PyStr.startswith old s
  || match s with
     | EmptyString => false
     | String _ s' => occurs_in old s'
     end.


(** The number of underscores of a string. *)
Definition underscores (s : string) : nat :=
  List.length (filter (λ c, c = "_"%char) (chars s)).

(** What the rest of the embedding keeps of a node. *)
Fixpoint skeleton (e : Node) : Element :=
  match e with
  | MkNode t a _ _ cs => Elem t a (map skeleton cs)
  end.

(** A node with its whitespace-only texts and tails forgotten. *)
Fixpoint content (e : Node) : Node :=
  match e with
  | MkNode t a text tail cs =>
      MkNode t a (if PyText.blank text then None else text)
             (if PyText.blank tail then None else tail)
             (map content cs)
  end.


(** The indentation of a level: a newline and two spaces per level. *)
Definition indentation (level : nat) : string :=
  String PyRe.newline (PyText.times level "  ").

(** A node with another tail. *)
Definition with_tail (tail : option string) (e : Node) : Node :=
  MkNode (n_tag e) (n_attrib e) (n_text e) tail (n_children e).

(** The update of a tail that the function applies in four places. *)
Definition retail (i : string) (e : Node) : Node :=
  if PyText.blank (n_tail e) then with_tail (Some i) e else e.

(** An old-style checkout, whose [manifest.xml] holds the default
    revision and a project itself, and a new-style one, whose
    [manifest.xml] only includes [default.xml]. *)
Definition old_style : FS :=
  {| xml_files :=
       {[ manifest_xml :=
            Elem "manifest" ∅
                 [Elem "default" {[ "revision" := "refs/heads/lineage-20" ]} [];
                  Elem "project" {[ "path" := "vendor/old" ]} []] ]};
     dep_files := ∅;
     dirs := ∅ |}.

Definition new_style : FS :=
  {| xml_files :=
       {[ manifest_xml :=
            Elem "manifest" ∅
                 [Elem "include" {[ "name" := "default.xml" ]} [];
                  Elem "project" {[ "path" := "vendor/unseen" ]} []];
          ".repo/manifests/default.xml" :=
            Elem "manifest" ∅
                 [Elem "default" {[ "revision" := "refs/heads/lineage-20" ]} [];
                  Elem "project" {[ "path" := "vendor/new" ]} []] ]};
     dep_files := ∅;
     dirs := ∅ |}.

(** * Properties *)

(** ** The primitives on examples *)

Example device_lineage_bacon : device "lineage_bacon" = "bacon".
Proof. reflexivity. Qed.

Example device_two_underscores : device "lineage_sdk_phone" = "sdk_phone".
Proof. reflexivity. Qed.

Example device_plain : device "bacon" = "bacon".
Proof. reflexivity. Qed.

Example replace_ex : PyStr.replace "refs/heads/" "" "refs/heads/lineage-20" = "lineage-20".
Proof. reflexivity. Qed.

Example split_ex : PyStr.split " " "a  b " = ["a"; ""; "b"; ""].
Proof. reflexivity. Qed.

Example re_match_ex1 :
  PyRe.re_match "^android_device_[^_]*_bacon$" "android_device_oneplus_bacon" = Some true.
Proof. reflexivity. Qed.

Example re_match_ex2 :
  PyRe.re_match "^android_device_[^_]*_bacon$" "android_device_one_plus_bacon" = Some false.
Proof. reflexivity. Qed.

Example re_match_ex3 :
  PyRe.re_match "^android_device_[^_]*_a.b$" "android_device_acme_aXb" = Some true.
Proof. reflexivity. Qed.

Example re_search_ex1 :
  PyRe.re_search "android_device_.*_bacon$" "LineageOS/android_device_one_plus_bacon" = Some true.
Proof. reflexivity. Qed.

(** ** Target resolver *)

Lemma append_String (a : ascii) (s t : string) : String a s +:+ t = String a (s +:+ t).
Proof. reflexivity. Qed.

Lemma append_empty_l (t : string) : "" +:+ t = t.
Proof. reflexivity. Qed.

Lemma append_assoc (s t u : string) : (s +:+ t) +:+ u = s +:+ t +:+ u.
Proof. induction s as [|a s IH]; [done | by rewrite !append_String, IH]. Qed.

Lemma length_append (s t : string) :
  String.length (s +:+ t) = String.length s + String.length t.
Proof. induction s as [|a s IH]; [done | rewrite append_String; simpl; by rewrite IH]. Qed.

Lemma index_None (c : ascii) (s : string) :
  PyStr.index c s = None ↔ c ∉ chars s.
Proof.
  induction s as [|a s IH]; simpl.
  - split; [intros _; apply not_elem_of_nil | done].
  - destruct (Ascii.eqb_spec a c) as [->|Hne].
    + split; [done | intros H; destruct H; apply list_elem_of_here].
    + rewrite not_elem_of_cons. destruct (PyStr.index c s); simpl.
      * split; [done | intros [_ H]; by apply IH in H].
      * split; [intros _; split; [congruence | by apply IH] | done].
Qed.

Lemma index_first (c : ascii) (pre post : string) :
  c ∉ chars pre →
  PyStr.index c (pre +:+ String c post) = Some (String.length pre).
Proof.
  induction pre as [|a pre IH]; simpl; intros Hpre.
  - by rewrite Ascii.eqb_refl.
  - apply not_elem_of_cons in Hpre as [Hne Hpre].
    destruct (Ascii.eqb_spec a c) as [->|_]; [done |].
    by rewrite IH.
Qed.

Lemma slice_from_app (pre post : string) :
  PyStr.slice_from (String.length pre) (pre +:+ post) = post.
Proof.
  induction pre as [|a pre IH]; simpl; [by destruct post | done].
Qed.

(** C7.  When the product name splits as [pre ++ "_" ++ post] with no
    underscore in [pre] (so the underscore shown is the first one), the
    device is [post], the part after it; when the product name has no
    underscore at all, the device is the product name. *)
Theorem device_after_first_underscore (product : string) :
  (∀ pre post : string,
      product = pre +:+ "_" +:+ post → "_"%char ∉ chars pre → device product = post)
  ∧ ("_"%char ∉ chars product → device product = product).
Proof.
  split.
  - intros pre post -> Hpre. unfold device.
    change ("_" +:+ post) with (String "_" post).
    rewrite index_first by done.
    replace (String.length pre + 1) with (String.length (pre +:+ "_"))
      by (by rewrite length_append).
    change (String "_" post) with ("_" +:+ post).
    rewrite <- append_assoc. apply slice_from_app.
  - intros Hno. unfold device. apply index_None in Hno. by rewrite Hno.
Qed.

Lemma device_after_first_underscore_witness :
  device "lineage_sdk_phone" = "sdk_phone" ∧ device "bacon" = "bacon".
Proof.
  split.
  - apply (proj1 (device_after_first_underscore "lineage_sdk_phone") "lineage" "sdk_phone").
    + reflexivity.
    + apply (bool_decide_unpack _). vm_compute. exact I.
  - apply (proj2 (device_after_first_underscore "bacon")).
    apply (bool_decide_unpack _). vm_compute. exact I.
Defined.

(** ** Manifest store: membership *)

Lemma has_project_path_true (doc : Element) (path : string) :
  has_project_path doc path = true ↔ has_entry doc path.
Proof.
  unfold has_project_path, has_entry, ElementTree.findall, ElementTree.get.
  rewrite existsb_exists. split.
  - intros (e & Hin & Hp). apply list_elem_of_In, list_elem_of_filter in Hin as [Ht Hin].
    apply bool_decide_eq_true in Hp. eauto.
  - intros (e & Hin & Ht & Hp). exists e. split.
    + apply list_elem_of_In, list_elem_of_filter. eauto.
    + by apply bool_decide_eq_true.
Qed.

Lemma filter_none {A} (P : A → Prop) `{∀ x, Decision (P x)} (l : list A) :
  (∀ x, x ∈ l → ¬ P x) → filter P l = [].
Proof.
  induction l as [|x l IH]; intros Hall; [done |].
  rewrite filter_cons_False by (apply Hall; left).
  apply IH. intros y Hy. apply Hall. by right.
Qed.

Lemma is_in_manifest_orb (fs : FS) (path : string) :
  is_in_manifest fs path
  = has_project_path (local_document fs) path
    || has_project_path (main_document fs) path
    || has_project_path (snippet_document fs) path.
Proof.
  unfold is_in_manifest.
  fold (local_document fs) (main_document fs) (snippet_document fs).
  destruct (has_project_path (local_document fs) path); [done |].
  by destruct (has_project_path (main_document fs) path).
Qed.

Lemma has_entry_empty (path : string) : ¬ has_entry ElementTree.empty_manifest path.
Proof. intros (e & He & _). by apply elem_of_nil in He. Qed.

(** What [try: parse ... except: Element("manifest")] finds in a file. *)
Lemma has_entry_load (fs : FS) (p path : string) :
  has_entry (load_or_empty fs (inr p)) path
  ↔ ∃ doc, file_holds fs p doc ∧ has_entry doc path.
Proof.
  unfold load_or_empty, parse_xml, file_holds.
  destruct (xml_files fs !! p) as [root|]; split.
  - intros He. by exists root.
  - by intros (doc & [= <-] & He).
  - intros He. by apply has_entry_empty in He.
  - by intros (doc & [=] & _).
Qed.

Lemma findall_nil (t : string) (m : Element) :
  ElementTree.findall t m = [] ↔ ∀ d, d ∈ children m → tag d ≠ t.
Proof.
  unfold ElementTree.findall. split.
  - intros Hnil d Hd Ht.
    assert (d ∈ filter (λ c, tag c = t) (children m)) as Hin
      by (by apply list_elem_of_filter).
    rewrite Hnil in Hin. by apply elem_of_nil in Hin.
  - intros Hall. apply filter_none. intros d Hd. by apply Hall.
Qed.

Lemma find_first_child (t : string) (m e : Element) :
  ElementTree.find t m = Some e ↔ first_child t m e.
Proof.
  unfold ElementTree.find, ElementTree.findall, first_child.
  induction (children m) as [|c cs IH].
  - split; [done |]. intros (pre & post & Heq & _). by destruct pre.
  - rewrite filter_cons. destruct (decide (tag c = t)) as [Ht | Ht].
    + simpl. split.
      * intros [= <-]. exists [], cs. by repeat split.
      * intros (pre & post & Heq & He & Hpre). destruct pre as [|c' pre].
        -- by injection Heq as <- _.
        -- injection Heq as <- _. by apply Forall_cons in Hpre as [Hc _].
    + rewrite IH. split.
      * intros (pre & post & -> & He & Hpre). exists (c :: pre), post.
        repeat split; [done |]. by apply Forall_cons.
      * intros (pre & post & Heq & He & Hpre). destruct pre as [|c' pre].
        -- injection Heq as <- _. done.
        -- injection Heq as <- ->. apply Forall_cons in Hpre as [_ Hpre].
           by exists pre, post.
Qed.

(** [get_manifest_path] returns a path exactly when there is a file that
    serves as main manifest, and then it is the path of that file. *)
Lemma get_manifest_path_file (fs : FS) (path : string) :
  get_manifest_path fs = inr path ↔ main_manifest_file fs path.
Proof.
  unfold get_manifest_path, parse_xml. split.
  - destruct (xml_files fs !! manifest_xml) as [m|] eqn:Hm; [| done].
    destruct (ElementTree.findall "default" m) as [|d rest] eqn:Hd.
    + destruct (ElementTree.find "include" m) as [inc|] eqn:Hinc; [| done].
      intros [= <-]. apply (main_manifest_included fs m inc); [done | |].
      * by apply findall_nil.
      * by apply find_first_child.
    + intros [= <-].
      assert (d ∈ ElementTree.findall "default" m) as Hin by (rewrite Hd; left).
      apply list_elem_of_filter in Hin as [Ht Hin].
      by apply (main_manifest_itself fs m d).
  - intros [m d Hm Hd Ht | m inc Hm Hd Hinc]; rewrite Hm.
    + destruct (ElementTree.findall "default" m) eqn:Hnil; [| done].
      by destruct (proj1 (findall_nil _ _) Hnil d Hd).
    + rewrite (proj2 (findall_nil _ _) Hd).
      by rewrite (proj2 (find_first_child _ _ _) Hinc).
Qed.

(** C3.  [is_in_manifest] answers true exactly when one of the three
    manifest sources holds a project entry with that very path: the file
    [.repo/local_manifests/roomservice.xml], the file that serves as
    main manifest, or the file [.repo/manifests/snippets/lineage.xml],
    where an entry is a [project] child of the root of the file whose
    [path] attribute is the string.  A source that is missing or cannot
    be read holds no entry; which of the three holds the entry plays no
    part. *)
Theorem is_in_manifest_union (fs : FS) (projectpath : string) :
  is_in_manifest fs projectpath = true
  ↔ ∃ doc, manifest_source fs doc ∧ has_entry doc projectpath.
Proof.
  rewrite is_in_manifest_orb, !orb_true_iff, !has_project_path_true.
  unfold local_document, main_document, snippet_document.
  rewrite !has_entry_load. split.
  - intros [[(doc & Hdoc & He) | Hmain] | (doc & Hdoc & He)].
    + exists doc. split; [by apply source_local | done].
    + destruct (get_manifest_path fs) as [e|path] eqn:Hpath.
      { by apply has_entry_empty in Hmain. }
      apply has_entry_load in Hmain as (doc & Hdoc & He).
      exists doc. split; [| done].
      apply (source_main fs path); [by apply get_manifest_path_file | done].
    + exists doc. split; [by apply source_snippet | done].
  - intros (doc & [doc' Hdoc | path doc' Hpath Hdoc | doc' Hdoc] & He).
    + left. left. by exists doc'.
    + left. right. apply get_manifest_path_file in Hpath as ->.
      apply has_entry_load. by exists doc'.
    + right. by exists doc'.
Qed.

(** The three sources on a new-style checkout: an entry of the included
    file is found, an entry of [.repo/manifest.xml] itself is not. *)
Example manifest_sources_new_style :
  (∃ doc, manifest_source new_style doc ∧ has_entry doc "vendor/new")
  ∧ ¬ ∃ doc, manifest_source new_style doc ∧ has_entry doc "vendor/unseen".
Proof.
  split.
  - exists (Elem "manifest" ∅
              [Elem "default" {[ "revision" := "refs/heads/lineage-20" ]} [];
               Elem "project" {[ "path" := "vendor/new" ]} []]).
    split.
    + apply (source_main new_style ".repo/manifests/default.xml"); [| reflexivity].
      apply get_manifest_path_file. vm_compute. reflexivity.
    + exists (Elem "project" {[ "path" := "vendor/new" ]} []).
      split; [| split; reflexivity].
      apply list_elem_of_further, list_elem_of_here.
  - intros (doc & [doc' Hdoc | path doc' Hpath Hdoc | doc' Hdoc] & He).
    + vm_compute in Hdoc. discriminate.
    + apply get_manifest_path_file in Hpath. vm_compute in Hpath.
      injection Hpath as <-. vm_compute in Hdoc. injection Hdoc as <-.
      destruct He as (e & Hin & _ & Hp). cbn [children] in Hin.
      rewrite !elem_of_cons in Hin.
      destruct Hin as [-> | [-> | Hin]];
        [vm_compute in Hp; discriminate | vm_compute in Hp; discriminate
        | by apply elem_of_nil in Hin].
    + vm_compute in Hdoc. discriminate.
Qed.

(** ** Manifest store: what [add_to_manifest] does *)

(** Running the monad, one step at a time. *)
Lemma run_bind {A B} (m : M A) (f : A → M B) (s : State) :
  (m ≫= f) s = match m s with Ret a s' => f a s' | Halted h s' => Halted h s' end.
Proof. reflexivity. Qed.

Lemma run_ret {A} (a : A) (s : State) : (mret a : M A) s = Ret a s.
Proof. reflexivity. Qed.

Lemma run_emit (e : Event) (s : State) :
  emit e s = Ret tt {| st_fs := st_fs s; st_log := st_log s ++ [e] |}.
Proof. reflexivity. Qed.

Lemma run_print (line : string) (s : State) :
  print line s = Ret tt {| st_fs := st_fs s; st_log := st_log s ++ [Print line] |}.
Proof. reflexivity. Qed.

Lemma run_get_fs (s : State) : get_fs s = Ret (st_fs s) s.
Proof. reflexivity. Qed.

Lemma run_put_fs (fs : FS) (s : State) :
  put_fs fs s = Ret tt {| st_fs := fs; st_log := st_log s |}.
Proof. reflexivity. Qed.

Lemma run_halt {A} (h : Halt) (s : State) : halt (A := A) h s = Halted h s.
Proof. reflexivity. Qed.

Ltac run :=
  repeat (rewrite ?run_bind, ?run_ret, ?run_emit, ?run_print, ?run_get_fs,
            ?run_put_fs, ?run_halt; cbn [st_fs st_log]).

Lemma extend_nil (lm : Element) : extend lm [] = lm.
Proof. destruct lm. unfold extend. simpl. by rewrite app_nil_r. Qed.

Lemma extend_append (lm e : Element) (new : list Element) :
  extend (ElementTree.append lm e) new = extend lm (e :: new).
Proof. unfold extend, ElementTree.append. simpl. by rewrite <- app_assoc. Qed.

Lemma add_each_run (repositories : list Dependency) (fallback_branch : option string)
    (lm : Element) (s : State) :
  add_each repositories fallback_branch lm s
  = Ret (extend lm (added (st_fs s) fallback_branch repositories))
        {| st_fs := st_fs s;
           st_log := st_log s ++ add_log (st_fs s) fallback_branch repositories |}.
Proof.
  revert lm s. induction repositories as [|repo rest IH]; intros lm s.
  - simpl. rewrite run_ret, extend_nil, app_nil_r. by destruct s.
  - cbn [add_each add_log]. unfold added, absent. rewrite filter_cons.
    run. destruct (is_in_manifest (st_fs s) (target_path repo)) eqn:Hin.
    + rewrite decide_False by done. run. rewrite IH. cbn [st_fs st_log].
      unfold added, absent. by rewrite <- !app_assoc.
    + rewrite decide_True by done. rewrite fmap_cons.
      unfold project_for at 1. run.
      destruct (branch repo) as [b|].
      * run. rewrite IH. cbn [st_fs st_log].
        rewrite extend_append. unfold added, absent. by rewrite <- !app_assoc.
      * destruct (truthy_opt fallback_branch); run; rewrite IH; cbn [st_fs st_log];
          rewrite extend_append; unfold added, absent; by rewrite <- !app_assoc.
Qed.

Lemma add_to_manifest_run (repositories : list Dependency)
    (fallback_branch : option string) (s : State) :
  add_to_manifest repositories fallback_branch s
  = Ret tt
      {| st_fs := with_local (st_fs s)
                    (extend (local_document (st_fs s))
                            (added (st_fs s) fallback_branch repositories));
         st_log := st_log s ++ add_log (st_fs s) fallback_branch repositories
                            ++ [WriteFile roomservice_xml] |}.
Proof.
  unfold add_to_manifest, write_xml. run. rewrite add_each_run. run.
  by rewrite <- app_assoc.
Qed.

(** ** Manifest store: one entry per path *)

Lemma elem_of_project_paths (doc : Element) (path : string) :
  path ∈ project_paths doc ↔ has_entry doc path.
Proof.
  unfold project_paths, has_entry, ElementTree.findall, ElementTree.get.
  rewrite list_elem_of_omap. split.
  - intros (e & Hin & Hp). apply list_elem_of_filter in Hin as [Ht Hin]. eauto.
  - intros (e & Hin & Ht & Hp). exists e. split; [| done].
    apply list_elem_of_filter. eauto.
Qed.

Lemma is_in_manifest_all_paths (fs : FS) (path : string) :
  is_in_manifest fs path = true ↔ path ∈ all_paths fs.
Proof.
  rewrite is_in_manifest_orb. unfold all_paths.
  rewrite !orb_true_iff, !elem_of_app, !has_project_path_true,
    !elem_of_project_paths.
  tauto.
Qed.

Lemma project_for_tag (fallback_branch : option string) (repo : Dependency) :
  tag (project_for fallback_branch repo) = "project".
Proof.
  unfold project_for. destruct (branch repo); [done |].
  by destruct (truthy_opt fallback_branch).
Qed.

Lemma project_for_path (fallback_branch : option string) (repo : Dependency) :
  ElementTree.get "path" (project_for fallback_branch repo) = Some (target_path repo).
Proof.
  unfold project_for, ElementTree.get, ElementTree.set, new_project.
  destruct (branch repo); [| destruct (truthy_opt fallback_branch)]; simpl;
    by rewrite ?(lookup_insert_ne _ "revision" "path") by done;
       rewrite lookup_insert_eq.
Qed.

Lemma project_paths_extend (lm : Element) (fallback_branch : option string)
    (repositories : list Dependency) :
  project_paths (extend lm (project_for fallback_branch <$> repositories))
  = project_paths lm ++ (target_path <$> repositories).
Proof.
  unfold project_paths, extend, ElementTree.findall. simpl.
  rewrite filter_app, omap_app. f_equal.
  induction repositories as [|repo rest IH]; [done |].
  rewrite !fmap_cons, filter_cons_True by apply project_for_tag.
  change (omap ?f (?x :: ?l)) with
    (match f x with Some y => y :: omap f l | None => omap f l end).
  by rewrite project_for_path, IH.
Qed.

(** Overwriting the local manifest leaves the other two documents alone. *)
Lemma parse_xml_with_local (fs : FS) (doc : Element) (path : string) :
  path ≠ roomservice_xml →
  parse_xml (with_local fs doc) path = parse_xml fs path.
Proof.
  intros Hne. unfold parse_xml, with_local. simpl.
  by rewrite lookup_insert_ne.
Qed.

Lemma get_manifest_path_with_local (fs : FS) (doc : Element) :
  get_manifest_path (with_local fs doc) = get_manifest_path fs.
Proof. unfold get_manifest_path. by rewrite parse_xml_with_local. Qed.

Lemma get_manifest_path_not_local (fs : FS) (path : string) :
  get_manifest_path fs = inr path → path ≠ roomservice_xml.
Proof.
  unfold get_manifest_path.
  destruct (parse_xml fs manifest_xml) as [|m]; [done |].
  destruct (ElementTree.findall "default" m).
  - destruct (ElementTree.find "include" m); [| done].
    intros [= <-] Heq. apply (f_equal (String.get 6)) in Heq.
    vm_compute in Heq. discriminate.
  - by intros [= <-].
Qed.

Lemma local_document_with_local (fs : FS) (doc : Element) :
  local_document (with_local fs doc) = doc.
Proof.
  unfold local_document, load_or_empty, parse_xml, with_local. simpl.
  by rewrite lookup_insert_eq.
Qed.

Lemma main_document_with_local (fs : FS) (doc : Element) :
  main_document (with_local fs doc) = main_document fs.
Proof.
  unfold main_document. rewrite get_manifest_path_with_local.
  destruct (get_manifest_path fs) as [|path] eqn:Hpath; [done |].
  unfold load_or_empty. rewrite parse_xml_with_local; [done |].
  by eapply get_manifest_path_not_local.
Qed.

Lemma snippet_document_with_local (fs : FS) (doc : Element) :
  snippet_document (with_local fs doc) = snippet_document fs.
Proof.
  unfold snippet_document, load_or_empty. by rewrite parse_xml_with_local.
Qed.

(** The entries after a call: those from before, and one more in the
    local manifest for every record that was absent. *)
Lemma all_paths_after_add (fs : FS) (fallback_branch : option string)
    (repositories : list Dependency) :
  all_paths (with_local fs (extend (local_document fs)
                                   (added fs fallback_branch repositories)))
  ≡ₚ all_paths fs ++ (target_path <$> absent fs repositories).
Proof.
  unfold all_paths.
  rewrite local_document_with_local, main_document_with_local,
    snippet_document_with_local.
  unfold added. rewrite project_paths_extend.
  rewrite <- !app_assoc. apply Permutation_app_head.
  etrans; [apply Permutation_app_comm |]. by rewrite <- app_assoc.
Qed.

(** A batch without repeated paths keeps the invariant. *)
Lemma add_preserves_unique (fs : FS) (fallback_branch : option string)
    (repositories : list Dependency) :
  unique_paths fs →
  NoDup (target_path <$> repositories) →
  unique_paths (with_local fs (extend (local_document fs)
                                      (added fs fallback_branch repositories))).
Proof.
  intros Hfs Hbatch. unfold unique_paths. rewrite all_paths_after_add.
  apply NoDup_app. split; [done |]. split.
  - intros path Hin Hnew. apply list_elem_of_fmap in Hnew as (repo & -> & Hrepo).
    apply list_elem_of_filter in Hrepo as [Habs _].
    apply is_in_manifest_all_paths in Hin. congruence.
  - eapply sublist_NoDup; [exact Hbatch |].
    apply fmap_sublist, sublist_filter.
Qed.

(** C2, at the input where the code departs from it.  The batch holds
    two records for [vendor/foo], and the tree holds no manifest yet.
    The first call appends an element for each of the two records, since
    the membership test of line 183 reads the files, which are written
    only at line 211.  The second call with the same batch finds the
    path on disk and appends nothing, as the claim says; but the path
    has two entries after the first call and after the second, not
    one. *)
Theorem add_to_manifest_twice_duplicates :
  unique_paths (st_fs bare_checkout)
  ∧ ∃ s1 s2,
      add_to_manifest [vendor_foo; vendor_foo_fork] None bare_checkout = Ret tt s1
      ∧ add_to_manifest [vendor_foo; vendor_foo_fork] None s1 = Ret tt s2
      ∧ children (local_document (st_fs s1))
        = [project_for None vendor_foo; project_for None vendor_foo_fork]
      ∧ local_document (st_fs s2) = local_document (st_fs s1)
      ∧ entry_count (st_fs s1) "vendor/foo" = 2
      ∧ entry_count (st_fs s2) "vendor/foo" = 2.
Proof.
  split.
  - apply (bool_decide_unpack _). vm_compute. exact I.
  - rewrite add_to_manifest_run. eexists. eexists. split; [reflexivity |].
    rewrite add_to_manifest_run. split; [reflexivity |]. cbn [st_fs].
    repeat split; vm_compute; reflexivity.
Qed.

(** C5, at the input where the code departs from it.  A batch with two
    records for the same path, neither on disk yet: the membership test
    of line 183 reads the files, not the document being built, so both
    records pass it and the local manifest ends up with two entries for
    the path. *)
Theorem add_to_manifest_duplicate_batch :
  unique_paths (st_fs empty_state)
  ∧ ∃ s', add_to_manifest [vendor_foo; vendor_foo_fork] None empty_state = Ret tt s'
          ∧ project_paths (local_document (st_fs s')) = ["vendor/foo"; "vendor/foo"]
          ∧ entry_count (st_fs s') "vendor/foo" = 2
          ∧ ¬ unique_paths (st_fs s').
Proof.
  split.
  - apply (bool_decide_unpack _). vm_compute. exact I.
  - rewrite add_to_manifest_run. eexists. split; [reflexivity |].
    cbn [st_fs]. split; [| split].
    + vm_compute. reflexivity.
    + vm_compute. reflexivity.
    + apply (bool_decide_unpack _). vm_compute. exact I.
Qed.

(** ** Dependency walker *)

Lemma bind_ext {A B} (m : M A) (f g : A → M B) (s : State) :
  (∀ a s', f a s' = g a s') → (m ≫= f) s = (m ≫= g) s.
Proof. intros Hfg. rewrite !run_bind. by destruct (m s). Qed.

Lemma bind_ret_tt (m : M unit) (s : State) : (m;; mret tt) s = m s.
Proof. rewrite run_bind. by destruct (m s) as [[] s'|h s']. Qed.

Lemma for_each_ext {A} (l : list A) (f g : A → M unit) (s : State) :
  (∀ a s', f a s' = g a s') → for_each l f s = for_each l g s.
Proof.
  intros Hfg. revert s. induction l as [|x l IH]; intros s; [done |].
  cbn [for_each]. rewrite !run_bind, Hfg. destruct (g x s); [apply IH | done].
Qed.

Lemma scan_dependencies_spec (fs : FS) (dependencies : list Dependency) :
  scan_dependencies fs dependencies
  = (absent fs dependencies, sync_list fs dependencies, target_path <$> dependencies).
Proof.
  induction dependencies as [|d rest IH]; [done |].
  cbn [scan_dependencies]. rewrite IH. unfold absent, sync_list.
  rewrite fmap_cons. cbn [mbind list_bind].
  destruct (is_in_manifest fs (target_path d)) eqn:Hin.
  - rewrite filter_cons_False by (rewrite Hin; done). done.
  - rewrite filter_cons_True by done. done.
Qed.

(** One call of the walker on a repository whose dependency file parses:
    the batch for [add_to_manifest], the sync, then the calls at line
    244. *)
Lemma fetch_dependencies_body_file (W : World)
    (self : string → option string → M unit) (repo_path : string)
    (fallback_branch : option string) (s : State) (ds : list Dependency) :
  dep_files (st_fs s) !! (repo_path +:+ "/lineage.dependencies") = Some (Some ds) →
  fetch_dependencies_body W self repo_path fallback_branch s
  = ((if is_nil (absent (st_fs s) ds) then mret tt
      else print "Adding dependencies to manifest";;
           add_to_manifest (absent (st_fs s) ds) fallback_branch);;
     (if is_nil (sync_list (st_fs s) ds) then mret tt
      else print "Syncing dependencies";;
           os_system W (sync_command (sync_list (st_fs s) ds)));;
     for_each (target_path <$> ds) (λ deprepo, self deprepo None))
      {| st_fs := st_fs s;
         st_log := st_log s ++ [Print ("Looking for dependencies in " +:+ repo_path)] |}.
Proof.
  intros Hfile. unfold fetch_dependencies_body. run. rewrite Hfile. run.
  rewrite scan_dependencies_spec.
  match goal with |- context [?pre ≫= λ _, mret (?a, ?b)] => set (m := pre) end.
  rewrite (run_bind m). destruct (m _) as [[] s'|h s']; [| done].
  by run.
Qed.

(** ... and on a repository without a dependency file. *)
Lemma fetch_dependencies_body_no_file (W : World)
    (self : string → option string → M unit) (repo_path : string)
    (fallback_branch : option string) (s : State) :
  dep_files (st_fs s) !! (repo_path +:+ "/lineage.dependencies") = None →
  fetch_dependencies_body W self repo_path fallback_branch s
  = Ret tt {| st_fs := st_fs s;
              st_log := st_log s
                        ++ [Print ("Looking for dependencies in " +:+ repo_path);
                            Print (repo_path +:+ " has no additional dependencies.")] |}.
Proof.
  intros Hfile. unfold fetch_dependencies_body. run. rewrite Hfile. run.
  by rewrite <- app_assoc.
Qed.

Lemma run_os_system (W : World) (cmd : string) (s : State) :
  os_system W cmd s
  = Ret tt {| st_fs := shell W cmd (st_fs s); st_log := st_log s ++ [System cmd] |}.
Proof. unfold os_system. by run. Qed.

(** C4, as the code has it.  With the one-record dependency file at
    [device/acme/widget], [vendor/foo] in none of the three documents
    and not a directory: the walker appends exactly one element to the
    local manifest, a [project] for [vendor/foo] with remote [github]
    and name [LineageOS/android_vendor_foo]; it runs one sync command,
    which names [vendor/foo] twice (once for being absent from the
    manifests, once for being absent from disk); and it then calls
    itself on [vendor/foo] with no fallback revision. *)
Theorem fetch_dependencies_vendor_foo (W : World) (fuel : nat)
    (fallback_branch : option string) (s : State) :
  dep_files (st_fs s) !! "device/acme/widget/lineage.dependencies"
    = Some (Some [vendor_foo]) →
  is_in_manifest (st_fs s) "vendor/foo" = false →
  "vendor/foo" ∉ dirs (st_fs s) →
  let entry := project_for fallback_branch vendor_foo in
  fetch_dependencies W (S fuel) "device/acme/widget" fallback_branch s
  = fetch_dependencies W fuel "vendor/foo" None (after_vendor_foo W fallback_branch s)
  ∧ tag entry = "project"
  ∧ attrib entry !! "path" = Some "vendor/foo"
  ∧ attrib entry !! "remote" = Some "github"
  ∧ attrib entry !! "name" = Some "LineageOS/android_vendor_foo"
  ∧ sync_command (sync_list (st_fs s) [vendor_foo])
    = "repo sync --force-sync vendor/foo vendor/foo".
Proof.
  intros Hfile Habsent Hmissing entry.
  assert (absent (st_fs s) [vendor_foo] = [vendor_foo]) as Habs.
  { unfold absent. by rewrite filter_cons_True. }
  assert (sync_list (st_fs s) [vendor_foo] = ["vendor/foo"; "vendor/foo"]) as Hsync.
  { unfold sync_list. cbn [mbind list_bind]. simpl. rewrite Habsent.
    by rewrite bool_decide_eq_true_2. }
  split; [| split; [| split; [| split; [| split]]]].
  - cbn [fetch_dependencies].
    rewrite (fetch_dependencies_body_file W _ _ _ _ [vendor_foo]) by done.
    rewrite Habs, Hsync. cbn [is_nil]. run.
    rewrite add_to_manifest_run. run. rewrite run_os_system. run.
    cbn [fmap list_fmap for_each]. rewrite bind_ret_tt.
    f_equal. unfold after_vendor_foo. f_equal.
    + unfold added. by rewrite Habs.
    + cbn [add_log]. simpl. rewrite Habsent. rewrite <- !app_assoc. simpl.
      by destruct (truthy_opt fallback_branch).
  - apply project_for_tag.
  - apply project_for_path.
  - unfold entry, project_for. simpl.
    by destruct (truthy_opt fallback_branch).
  - unfold entry, project_for. simpl.
    by destruct (truthy_opt fallback_branch).
  - by rewrite Hsync.
Qed.

Lemma fetch_dependencies_vendor_foo_witness :
  fetch_dependencies offline 2 "device/acme/widget" None widget_state
  = fetch_dependencies offline 1 "vendor/foo" None
      (after_vendor_foo offline None widget_state).
Proof.
  apply (fetch_dependencies_vendor_foo offline 1 None widget_state).
  - vm_compute. reflexivity.
  - vm_compute. reflexivity.
  - apply (bool_decide_unpack _). vm_compute. exact I.
Defined.

(** C4 as worded asks for a sync of the path list [["vendor/foo"]]; the
    command the walker runs in the scenario is a different one. *)
Lemma sync_names_vendor_foo_twice :
  ∃ s', fetch_dependencies offline 2 "device/acme/widget" None widget_state = Ret tt s'
        ∧ (System (sync_command ["vendor/foo"]) ∉ st_log s')
        ∧ (System (sync_command ["vendor/foo"; "vendor/foo"]) ∈ st_log s').
Proof.
  eexists. split; [vm_compute; reflexivity |]. split.
  - apply (bool_decide_unpack _). vm_compute. exact I.
  - apply (bool_decide_unpack _). vm_compute. exact I.
Qed.

(** C10.  The walker's body uses the function it calls at line 244 only
    at fallback [None]: replacing that function by one that ignores the
    fallback it is given changes nothing.  So a call with fuel to spare
    is the body run over calls without fallback, whatever fallback the
    outer call received; and when no direct dependency is newly added,
    the outer fallback has no effect on the run at all. *)
Theorem recursive_calls_drop_fallback (W : World) :
  (∀ (self : string → option string → M unit) repo_path fallback_branch s,
      fetch_dependencies_body W self repo_path fallback_branch s
      = fetch_dependencies_body W (λ deprepo _, self deprepo None)
          repo_path fallback_branch s)
  ∧ (∀ fuel repo_path fallback_branch s,
        fetch_dependencies W (S fuel) repo_path fallback_branch s
        = fetch_dependencies_body W (λ deprepo _, fetch_dependencies W fuel deprepo None)
            repo_path fallback_branch s)
  ∧ (∀ fuel repo_path fallback1 fallback2 s,
        (∀ ds, dep_files (st_fs s) !! (repo_path +:+ "/lineage.dependencies")
               = Some (Some ds) →
               absent (st_fs s) ds = []) →
        fetch_dependencies W fuel repo_path fallback1 s
        = fetch_dependencies W fuel repo_path fallback2 s).
Proof.
  assert (∀ (self : string → option string → M unit) repo_path fallback_branch s,
             fetch_dependencies_body W self repo_path fallback_branch s
             = fetch_dependencies_body W (λ deprepo _, self deprepo None)
                 repo_path fallback_branch s) as Hbody.
  { intros self repo_path fallback_branch s. unfold fetch_dependencies_body.
    apply bind_ext. intros _ s0.
    apply bind_ext. intros fs s1.
    apply bind_ext. intros [syncable_repos verify_repos] s2.
    apply bind_ext. intros _ s3. by apply for_each_ext. }
  split; [exact Hbody |]. split.
  - intros fuel repo_path fallback_branch s. cbn [fetch_dependencies]. apply Hbody.
  - intros [|fuel] repo_path fallback1 fallback2 s Hnone; [done |].
    cbn [fetch_dependencies].
    destruct (dep_files (st_fs s) !! (repo_path +:+ "/lineage.dependencies"))
      as [[ds|]|] eqn:Hfile.
    + rewrite !(fetch_dependencies_body_file W _ _ _ _ ds) by done.
      by rewrite (Hnone ds).
    + unfold fetch_dependencies_body. run. rewrite Hfile. by run.
    + by rewrite !fetch_dependencies_body_no_file.
Qed.

Lemma recursive_calls_drop_fallback_witness :
  fetch_dependencies offline 2 "device/acme/widget" (Some "lineage-20") widget_synced
  = fetch_dependencies offline 2 "device/acme/widget" None widget_synced.
Proof.
  apply (proj2 (proj2 (recursive_calls_drop_fallback offline))).
  intros ds Hds. vm_compute in Hds. injection Hds as <-.
  vm_compute. reflexivity.
Defined.

(** ** Revision resolver *)

Lemma log_more_nil (s : State) : log_more s [] = s.
Proof. destruct s. unfold log_more. simpl. by rewrite app_nil_r. Qed.

Lemma log_more_more (s : State) (e1 e2 : list Event) :
  log_more (log_more s e1) e2 = log_more s (e1 ++ e2).
Proof. unfold log_more. simpl. by rewrite app_assoc. Qed.

Lemma for_each_print (lines : list string) (s : State) :
  for_each lines print s = Ret tt (log_more s (Print <$> lines)).
Proof.
  revert s. induction lines as [|l lines IH]; intros s.
  - by rewrite log_more_nil.
  - cbn [for_each]. rewrite run_bind, run_print, IH.
    unfold log_more. simpl. by rewrite <- app_assoc.
Qed.

Lemma truthy_fallbacks (value f : string) :
  f ∈ fallbacks_of value → PyStr.truthy f = true.
Proof.
  unfold fallbacks_of. intros Hin.
  apply list_elem_of_In, filter_In in Hin. tauto.
Qed.

Lemma first_fallback_run (result : list Branch) (fallbacks : list string) (s : State) :
  first_fallback result fallbacks s
  = match List.find (has_branch result) fallbacks with
    | Some f => Ret (Some f) (log_more s [Print ("Using fallback branch: " +:+ f)])
    | None => Ret None s
    end.
Proof.
  induction fallbacks as [|f rest IH]; [done |].
  cbn [first_fallback List.find]. destruct (has_branch result f); [| done].
  by run.
Qed.

Lemma has_branch_app (bs ts : list Branch) (revision : string) :
  has_branch (bs ++ ts) revision
  = bool_decide (revision ∈ (branch_name <$> bs) ++ (branch_name <$> ts)).
Proof. unfold has_branch. by rewrite fmap_app. Qed.

(** How [choose_fallback] ends, for a default revision that is not among
    the names. *)
Lemma choose_fallback_run (W : World) (repo_name default_revision : string)
    (result : list Branch) (s : State) :
  has_branch result default_revision = false →
  choose_fallback W repo_name default_revision result s
  = match List.find (has_branch result) (env_fallbacks (ROOMSERVICE_BRANCHES W)) with
    | Some f => Ret (Some f) (log_more s [Print ("Using fallback branch: " +:+ f)])
    | None =>
        Halted (SysExit None)
               (log_more s (bail_out_lines default_revision repo_name
                                           (branch_name <$> result)))
    end.
Proof.
  intros Hdefault. unfold choose_fallback. rewrite Hdefault.
  assert (∀ s0 : State,
    (print ("Default revision " +:+ default_revision +:+ " not found in "
            +:+ repo_name +:+ ". Bailing.");;
     print "Branches found:";;
     for_each (branch_name <$> result) print;;
     print "Use the ROOMSERVICE_BRANCHES environment variable to specify a list of fallback branches.";;
     sys_exit (A := option string) None) s0
    = Halted (SysExit None)
        (log_more s0 (bail_out_lines default_revision repo_name
                                     (branch_name <$> result)))) as Hbail.
  { intros s0. run. rewrite for_each_print. run. unfold sys_exit. run.
    unfold log_more, bail_out_lines. simpl. by rewrite <- !app_assoc. }
  rewrite run_bind.
  destruct (ROOMSERVICE_BRANCHES W) as [value|]; simpl.
  - destruct (PyStr.truthy value) eqn:Hvalue.
    + rewrite first_fallback_run.
      destruct (List.find (has_branch result) (fallbacks_of value)) as [f|] eqn:Hfind.
      * apply find_some in Hfind as [Hin _].
        apply list_elem_of_In, truthy_fallbacks in Hin.
        simpl. rewrite Hin. by run.
      * simpl. apply Hbail.
    + destruct value; [| done]. run. simpl. apply Hbail.
  - apply Hbail.
Qed.

Lemma find_ext {A} (f g : A → bool) (l : list A) :
  (∀ x, f x = g x) → List.find f l = List.find g l.
Proof.
  intros Hfg. induction l as [|x l IH]; [done |].
  simpl. by rewrite Hfg, IH.
Qed.

(** The requests [fetch_refs] makes and the list it returns. *)
Lemma fetch_refs_run (W : World) (repo : Candidate) (default_revision : string)
    (s : State) :
  fetch_refs W repo default_revision s
  = (let s1 := log_more s [HttpGet (branches_endpoint repo)] in
     match branches_reply W (branches_endpoint repo) with
     | HttpFail e => Halted (Uncaught e) s1
     | HttpOk bs =>
         if bool_decide (default_revision ∈ branch_name <$> bs) then Ret bs s1
         else
           let s2 := log_more s1 [HttpGet (tags_endpoint repo)] in
           match tags_reply W (tags_endpoint repo) with
           | HttpFail e => Halted (Uncaught e) s2
           | HttpOk ts => Ret (bs ++ ts) s2
           end
     end).
Proof.
  unfold fetch_refs. fold (branches_endpoint repo) (tags_endpoint repo).
  cbn zeta. run.
  destruct (branches_reply W (branches_endpoint repo)) as [e|bs].
  { unfold lift_reply, raise. by run. }
  unfold lift_reply at 1. run.
  change (has_branch bs default_revision)
    with (bool_decide (default_revision ∈ branch_name <$> bs)).
  destruct (bool_decide (default_revision ∈ branch_name <$> bs)); [by run |].
  run. destruct (tags_reply W (tags_endpoint repo)) as [e|ts].
  { unfold lift_reply, raise. by run. }
  unfold lift_reply. run. unfold log_more. simpl. by rewrite <- app_assoc.
Qed.

(** Splitting at a separator, field by field. *)
Lemma split_space_free (c : ascii) (x : string) :
  c ∉ chars x → PyStr.split c x = [x].
Proof.
  induction x as [|a x IH]; [done |].
  simpl. intros Hx. apply not_elem_of_cons in Hx as [Hne Hx].
  destruct (Ascii.eqb_spec a c) as [-> | _]; [done |].
  by rewrite IH.
Qed.

Lemma split_field (c : ascii) (x rest : string) :
  c ∉ chars x → PyStr.split c (x +:+ String c rest) = x :: PyStr.split c rest.
Proof.
  induction x as [|a x IH].
  - intros _. rewrite append_empty_l. simpl. by rewrite Ascii.eqb_refl.
  - intros Hx. apply not_elem_of_cons in Hx as [Hne Hx].
    rewrite append_String. simpl.
    destruct (Ascii.eqb_spec a c) as [-> | _]; [done |].
    by rewrite IH.
Qed.

(** [split] gives back the fields a value was put together from. *)
Lemma split_concat (names : list string) :
  Forall space_free names → names ≠ [] →
  PyStr.split " " (String.concat " " names) = names.
Proof.
  induction 1 as [|x rest Hx Hrest IH]; [done |]. intros _.
  destruct rest as [|y rest].
  - simpl. by apply split_space_free.
  - change (String.concat " " (x :: y :: rest))
      with (x +:+ String " " (String.concat " " (y :: rest))).
    rewrite split_field by done. f_equal. by apply IH.
Qed.

Lemma filter_truthy (names : list string) :
  List.filter PyStr.truthy names = filter (λ n, n ≠ "") names.
Proof.
  induction names as [|[|c n] names IH]; [done | |].
  - simpl. by rewrite filter_cons_False by (intros H; by apply H).
  - simpl. rewrite filter_cons_True by done. by rewrite IH.
Qed.

(** The list of line 284 is the fields of the value that are not empty,
    in their order. *)
Lemma env_fallbacks_names (value : option string) (names : list string) :
  space_separated value names →
  env_fallbacks value = filter (λ n, n ≠ "") names.
Proof.
  intros [Hfree Hvalue]. destruct value as [v|]; [| by subst names].
  subst v. unfold env_fallbacks, fallbacks_of. destruct names as [|x rest]; [done |].
  rewrite split_concat by done. apply filter_truthy.
Qed.

Lemma split_fields_no_separator (c : ascii) (s f : string) :
  f ∈ PyStr.split c s → c ∉ chars f.
Proof.
  revert f. induction s as [|a s IH]; intros f Hf.
  - simpl in Hf. apply list_elem_of_singleton in Hf as ->. apply not_elem_of_nil.
  - simpl in Hf. destruct (Ascii.eqb_spec a c) as [-> | Hne].
    + apply elem_of_cons in Hf as [-> | Hf]; [apply not_elem_of_nil | by apply IH].
    + destruct (PyStr.split c s) as [|g gs] eqn:Hsplit.
      * apply list_elem_of_singleton in Hf as ->. simpl.
        apply not_elem_of_cons. split; [done | apply not_elem_of_nil].
      * apply elem_of_cons in Hf as [-> | Hf].
        -- simpl. apply not_elem_of_cons. split; [done |]. apply IH. left.
        -- apply IH. by right.
Qed.

Lemma concat_split (c : ascii) (s : string) :
  String.concat (String c "") (PyStr.split c s) = s.
Proof.
  induction s as [|a s IH]; [done |].
  simpl. destruct (Ascii.eqb_spec a c) as [-> | _].
  - destruct (PyStr.split c s) as [|f fs] eqn:Hsplit; [by destruct s |].
    change (String.concat (String c "") ("" :: f :: fs))
      with ("" +:+ String c (String.concat (String c "") (f :: fs))).
    by rewrite IH.
  - destruct (PyStr.split c s) as [|f fs]; [by rewrite <- IH |].
    rewrite <- IH. by destruct fs.
Qed.

(** Every value of the variable has its fields. *)
Lemma space_separated_total (value : option string) :
  ∃ names, space_separated value names.
Proof.
  destruct value as [v|].
  - exists (PyStr.split " " v). split.
    + apply Forall_forall. intros f Hf. by apply (split_fields_no_separator " " v).
    + by rewrite concat_split.
  - exists []. by split.
Qed.

(** C1, as the code has it.  [resolve_revision] follows the three tiers.
    It requests the branch list; with the default revision among the
    branch names the default is used and the tag list is not requested.
    Otherwise it requests the tag list, and the outcome is the one the
    specification gives for the branch names, the tag names and the
    fields of [ROOMSERVICE_BRANCHES] that are not empty, in the order in
    which the value lists them: the default if it is a branch or tag
    name, else the first of these fields that is one, else failure, where
    the script prints its diagnosis and exits.  An unset variable has no
    field, and a request that fails is an uncaught error. *)
Theorem resolve_revision_tiers (W : World) (repo : Candidate)
    (default_revision : string) (s : State) (names : list string) :
  space_separated (ROOMSERVICE_BRANCHES W) names →
  resolve_revision W repo default_revision s
  = (let s1 := log_more s [HttpGet (branches_endpoint repo)] in
     match branches_reply W (branches_endpoint repo) with
     | HttpFail e => Halted (Uncaught e) s1
     | HttpOk bs =>
         if bool_decide (default_revision ∈ branch_name <$> bs)
         then resolved UseDefault default_revision (name repo) (branch_name <$> bs) s1
         else
           let s2 := log_more s1 [HttpGet (tags_endpoint repo)] in
           match tags_reply W (tags_endpoint repo) with
           | HttpFail e => Halted (Uncaught e) s2
           | HttpOk ts =>
               resolved
                 (resolution_spec default_revision (branch_name <$> bs)
                    (branch_name <$> ts) (filter (λ n, n ≠ "") names))
                 default_revision (name repo)
                 ((branch_name <$> bs) ++ (branch_name <$> ts)) s2
           end
     end).
Proof.
  intros Hnames. apply env_fallbacks_names in Hnames as <-.
  unfold resolve_revision. rewrite run_bind, fetch_refs_run. cbn zeta.
  destruct (branches_reply W (branches_endpoint repo)) as [e|bs]; [done |].
  destruct (bool_decide (default_revision ∈ branch_name <$> bs)) eqn:Hbranch.
  { unfold choose_fallback, has_branch. by rewrite Hbranch. }
  destruct (tags_reply W (tags_endpoint repo)) as [e|ts]; [done |].
  unfold resolution_spec. rewrite Hbranch.
  destruct (bool_decide (default_revision
                           ∈ (branch_name <$> bs) ++ (branch_name <$> ts))) eqn:Htag.
  - unfold choose_fallback. by rewrite has_branch_app, Htag.
  - rewrite choose_fallback_run by (by rewrite has_branch_app).
    rewrite (find_ext (has_branch (bs ++ ts))
               (λ f, bool_decide (f ∈ (branch_name <$> bs) ++ (branch_name <$> ts))))
      by apply has_branch_app.
    rewrite fmap_app. by destruct (List.find _ _).
Qed.

(** Default [lineage-20], branches [main], tags [lineage-20-release],
    and the value [staging  lineage-20-release main], whose second field
    is empty: the tag is taken, as it comes before [main] in the value. *)
Lemma resolve_revision_tiers_witness :
  resolve_revision github_spaced bacon_repo "lineage-20" checkout
  = Ret (Some "lineage-20-release")
        (log_more checkout
           [HttpGet (branches_endpoint bacon_repo);
            HttpGet (tags_endpoint bacon_repo);
            Print "Using fallback branch: lineage-20-release"]).
Proof.
  rewrite (resolve_revision_tiers github_spaced bacon_repo "lineage-20" checkout
             ["staging"; ""; "lineage-20-release"; "main"]).
  - vm_compute. reflexivity.
  - split; [| reflexivity].
    apply (bool_decide_unpack _). vm_compute. exact I.
Defined.

(** C1 as worded takes the first element of the split value that is a
    branch or tag name.  The value [ lineage-20] splits into the empty
    string and [lineage-20]; with a branch whose name is the empty
    string, that first element would be selected, and the script exits
    without a fallback instead. *)
Lemma empty_field_is_no_fallback :
  space_separated (ROOMSERVICE_BRANCHES unnamed_branch) [""; "lineage-20"]
  ∧ resolution_spec "lineage-21" [""] [] [""; "lineage-20"] = UseFallback ""
  ∧ resolve_revision unnamed_branch bacon_repo "lineage-21" checkout
    = Halted (SysExit None)
        (log_more checkout
           ([HttpGet (branches_endpoint bacon_repo);
             HttpGet (tags_endpoint bacon_repo)]
            ++ bail_out_lines "lineage-21" (name bacon_repo) [""])).
Proof.
  split; [| split].
  - split; [| reflexivity]. apply (bool_decide_unpack _). vm_compute. exact I.
  - vm_compute. reflexivity.
  - vm_compute. reflexivity.
Qed.

Example resolution_spec_example :
  resolution_spec "lineage-20" ["main"] ["lineage-20-release"] ["staging"; "lineage-20"]
  = Unresolved
  ∧ resolution_spec "lineage-20" ["main"; "staging"] ["lineage-20-release"]
      ["staging"; "lineage-20"]
    = UseFallback "staging".
Proof. split; vm_compute; reflexivity. Qed.

(** ** Main program: how a run can end *)

Lemma Benign_ret {A} (a : A) : Benign (mret a : M A).
Proof. by intros s. Qed.

Lemma Benign_bind {A B} (m : M A) (f : A → M B) :
  Benign m → (∀ a, Benign (f a)) → Benign (m ≫= f).
Proof.
  intros Hm Hf s. rewrite run_bind. specialize (Hm s).
  destruct (m s) as [a s'|h s']; [apply Hf | exact Hm].
Qed.

Lemma Benign_emit (e : Event) : Benign (emit e).
Proof. by intros s. Qed.

Lemma Benign_print (line : string) : Benign (print line).
Proof. by intros s. Qed.

Lemma Benign_get_fs : Benign get_fs.
Proof. by intros s. Qed.

Lemma Benign_put_fs (fs : FS) : Benign (put_fs fs).
Proof. by intros s. Qed.

Lemma Benign_raise {A} (e : Exn) : Benign (raise (A := A) e).
Proof. by intros s. Qed.

Lemma Benign_exit {A} : Benign (sys_exit (A := A) None).
Proof. by intros s. Qed.

Lemma Benign_out_of_fuel {A} : Benign (halt (A := A) OutOfFuel).
Proof. by intros s. Qed.

Lemma Benign_lift_reply {A} (r : HttpReply A) : Benign (lift_reply r).
Proof. by destruct r; intros s. Qed.

Lemma Benign_lift_result {A} (r : Exn + A) : Benign (lift_result r).
Proof. by destruct r; intros s. Qed.

Lemma Benign_if {A} (b : bool) (m1 m2 : M A) :
  Benign m1 → Benign m2 → Benign (if b then m1 else m2).
Proof. by destruct b. Qed.

Lemma Benign_for_each {A} (l : list A) (f : A → M unit) :
  (∀ a, Benign (f a)) → Benign (for_each l f).
Proof.
  intros Hf. induction l as [|x l IH]; [apply Benign_ret |].
  cbn [for_each]. apply Benign_bind; [apply Hf | by intros _].
Qed.

Lemma Benign_add_to_manifest (repositories : list Dependency)
    (fallback_branch : option string) :
  Benign (add_to_manifest repositories fallback_branch).
Proof. intros s. by rewrite add_to_manifest_run. Qed.

Lemma Benign_os_system (W : World) (cmd : string) : Benign (os_system W cmd).
Proof. intros s. by rewrite run_os_system. Qed.

Create HintDb benign.
#[local] Hint Resolve Benign_ret Benign_emit Benign_print Benign_get_fs Benign_put_fs
  Benign_raise Benign_exit Benign_out_of_fuel Benign_lift_reply Benign_lift_result
  Benign_add_to_manifest Benign_os_system : benign.

Ltac benign_step :=
  first
    [ solve [auto with benign]
    | apply Benign_bind; [| intros ?]
    | apply Benign_if
    | apply Benign_for_each; intros ? ].

Lemma Benign_fetch_dependencies_body (W : World)
    (self : string → option string → M unit) (repo_path : string)
    (fallback_branch : option string) :
  (∀ p f, Benign (self p f)) →
  Benign (fetch_dependencies_body W self repo_path fallback_branch).
Proof.
  intros Hself. unfold fetch_dependencies_body.
  apply Benign_bind; [auto with benign | intros _].
  apply Benign_bind; [auto with benign | intros fs].
  apply Benign_bind; [| intros [syncable_repos verify_repos]].
  - destruct (dep_files fs !! (repo_path +:+ "/lineage.dependencies")) as [[ds|]|].
    + apply Benign_bind; [auto with benign | intros dependencies].
      destruct (scan_dependencies fs dependencies)
        as [[fetch_list syncable_repos] verify_repos].
      repeat benign_step.
    + repeat benign_step.
    + repeat benign_step.
  - repeat benign_step.
Qed.

Lemma Benign_fetch_dependencies (W : World) (fuel : nat) (repo_path : string)
    (fallback_branch : option string) :
  Benign (fetch_dependencies W fuel repo_path fallback_branch).
Proof.
  revert repo_path fallback_branch.
  induction fuel as [|fuel IH]; intros repo_path fallback_branch.
  - apply Benign_out_of_fuel.
  - cbn [fetch_dependencies]. by apply Benign_fetch_dependencies_body.
Qed.

Lemma Benign_resolve_revision (W : World) (repo : Candidate) (default_revision : string) :
  Benign (resolve_revision W repo default_revision).
Proof.
  assert (∀ result, Benign (choose_fallback W (name repo) default_revision result))
    as Hchoose.
  { intros result s.
    destruct (has_branch result default_revision) eqn:Hdefault.
    - unfold choose_fallback. by rewrite Hdefault.
    - rewrite choose_fallback_run by done. by destruct (List.find _ _). }
  intros s. unfold resolve_revision. rewrite run_bind, fetch_refs_run. cbn zeta.
  destruct (branches_reply W _); [done |].
  destruct (bool_decide _); [apply Hchoose |].
  destruct (tags_reply W _); [done | apply Hchoose].
Qed.

Lemma Benign_process_repository (W : World) (fuel : nat) (device : string)
    (repo : Candidate) :
  Benign (process_repository W fuel device repo).
Proof.
  unfold process_repository.
  repeat first [ apply Benign_resolve_revision
               | apply Benign_fetch_dependencies
               | benign_step ].
Qed.

Lemma Benign_find_repository (W : World) (fuel : nat) (device : string)
    (repositories : list Candidate) :
  Benign (find_repository W fuel device repositories).
Proof.
  induction repositories as [|repo rest IH]; [apply Benign_ret |].
  cbn [find_repository].
  destruct (re_match W (device_pattern device) (name repo)) as [[|]|];
    [apply Benign_process_repository | exact IH | apply Benign_raise].
Qed.

Lemma Benign_ensure_local_manifests : Benign ensure_local_manifests.
Proof. unfold ensure_local_manifests. repeat benign_step. Qed.

#[local] Hint Resolve Benign_fetch_dependencies Benign_find_repository
  Benign_ensure_local_manifests Benign_process_repository : benign.

Lemma main_benign (W : World) (fuel : nat) (product : string)
    (depsonly : option string) :
  truthy_opt depsonly = true ∨ ¬ search_fails W (device product) →
  Benign (main W fuel product depsonly).
Proof.
  intros Hcase. unfold main.
  destruct (truthy_opt depsonly) eqn:Hdeps.
  - repeat benign_step.
  - destruct Hcase as [? | Hsearch]; [done |].
    apply Benign_bind; [auto with benign | intros _].
    apply Benign_bind; [| intros repositories; repeat benign_step].
    unfold search_repositories. fold (search_url (device product)).
    apply Benign_bind; [auto with benign | intros _].
    unfold search_fails in Hsearch.
    destruct (search_reply W (search_url (device product))) as [[]|items];
      solve [auto with benign | exfalso; auto].
Qed.

Lemma main_search_failure (W : World) (fuel : nat) (product : string)
    (depsonly : option string) (s : State) :
  truthy_opt depsonly = false →
  search_fails W (device product) →
  ∃ line,
    main W fuel product depsonly s
    = Halted (SysExit (Some 1%Z))
        (log_more s [announce (device product);
                     HttpGet (search_url (device product));
                     Print line]).
Proof.
  intros Hdeps Hsearch. unfold main, search_repositories.
  fold (search_url (device product)). rewrite Hdeps. run.
  destruct Hsearch as [-> | ->]; run; unfold sys_exit; run;
    eexists; unfold log_more, announce; simpl; by rewrite <- !app_assoc.
Qed.

(** C9, as the code has it.  A run ends by falling off the end, by
    [sys.exit()] without a code, by an uncaught error, or by
    [sys.exit(1)]; the explicit code is 1 and nothing else, and it is
    used exactly when the search request of a full (not
    dependencies-only) run fails with [URLError] or with a reply that is
    not JSON. *)
Theorem exit_code_only_on_search_failure (W : World) (fuel : nat) (product : string)
    (depsonly : option string) (s : State) :
  (∀ code s', main W fuel product depsonly s = Halted (SysExit (Some code)) s' →
              code = 1%Z
              ∧ truthy_opt depsonly = false
              ∧ search_fails W (device product))
  ∧ (truthy_opt depsonly = false →
     search_fails W (device product) →
     ∃ s', main W fuel product depsonly s = Halted (SysExit (Some 1%Z)) s').
Proof.
  split.
  - intros code s' Hrun.
    destruct (truthy_opt depsonly) eqn:Hdeps.
    { pose proof (main_benign W fuel product depsonly (or_introl Hdeps) s) as Hb.
      by rewrite Hrun in Hb. }
    destruct (search_reply W (search_url (device product))) as [e|items] eqn:Hreply.
    + assert (search_fails W (device product) ∨ ¬ search_fails W (device product))
        as [Hfail | Hok].
      { unfold search_fails. rewrite Hreply.
        destruct e; first [left; by auto | right; intros [?|?]; congruence]. }
      * destruct (main_search_failure W fuel product depsonly s Hdeps Hfail)
          as [line Hline].
        rewrite Hline in Hrun. by injection Hrun as <- _.
      * pose proof (main_benign W fuel product depsonly (or_intror Hok) s) as Hb.
        by rewrite Hrun in Hb.
    + assert (¬ search_fails W (device product)) as Hok.
      { unfold search_fails. rewrite Hreply. intros [?|?]; congruence. }
      pose proof (main_benign W fuel product depsonly (or_intror Hok) s) as Hb.
      by rewrite Hrun in Hb.
  - intros Hdeps Hfail.
    destruct (main_search_failure W fuel product depsonly s Hdeps Hfail) as [line ->].
    by eexists.
Qed.

Lemma exit_code_only_on_search_failure_witness :
  ∃ s', main offline 0 "lineage_bacon" None empty_state = Halted (SysExit (Some 1%Z)) s'.
Proof.
  apply (proj2 (exit_code_only_on_search_failure offline 0 "lineage_bacon" None empty_state)).
  - reflexivity.
  - left. reflexivity.
Defined.

(** C9 as worded leaves no room for an explicit exit code; a run whose
    search request cannot complete ends with one. *)
Lemma search_failure_exits_with_code_1 :
  main offline 0 "lineage_bacon" None empty_state
  = Halted (SysExit (Some 1%Z))
      {| st_fs := empty_fs;
         st_log := [announce "bacon";
                    HttpGet (search_url "bacon");
                    Print "Failed to search GitHub"] |}
  ∧ ¬ benign (main offline 0 "lineage_bacon" None empty_state).
Proof. split; [vm_compute; reflexivity | vm_compute; tauto]. Qed.

(** ** Main program: the path on which resolution fails *)

Lemma run_ensure_local_manifests (s : State) :
  ensure_local_manifests s = Ret tt {| st_fs := ensured (st_fs s); st_log := st_log s |}.
Proof.
  unfold ensure_local_manifests, ensured. run.
  destruct (bool_decide (local_manifests ∈ dirs (st_fs s))); run; by destruct s.
Qed.

Lemma xml_files_ensured (fs : FS) : xml_files (ensured fs) = xml_files fs.
Proof. unfold ensured. by destruct (bool_decide _). Qed.

Lemma get_default_revision_ensured (fs : FS) :
  get_default_revision (ensured fs) = get_default_revision fs.
Proof. unfold ensured. by destruct (bool_decide _). Qed.

Lemma main_search_ok (W : World) (fuel : nat) (product : string)
    (depsonly : option string) (s : State) (items : list Candidate) :
  truthy_opt depsonly = false →
  search_reply W (search_url (device product)) = HttpOk items →
  main W fuel product depsonly s
  = (find_repository W fuel (device product) items;;
     print (not_found_line (device product)))
      {| st_fs := ensured (st_fs s);
         st_log := st_log s ++ [announce (device product);
                                HttpGet (search_url (device product))] |}.
Proof.
  intros Hdeps Hreply. unfold main, search_repositories.
  fold (search_url (device product)). rewrite Hdeps, Hreply. run.
  rewrite run_ensure_local_manifests. cbn [st_fs st_log].
  by rewrite <- app_assoc.
Qed.

(** The loop of line 258 stops at the first name the pattern accepts. *)
Lemma find_repository_first (W : World) (fuel : nat) (device : string)
    (pre post : list Candidate) (repo : Candidate) (s : State) :
  (∀ c, c ∈ pre → re_match W (device_pattern device) (name c) = Some false) →
  re_match W (device_pattern device) (name repo) = Some true →
  find_repository W fuel device (pre ++ repo :: post) s
  = process_repository W fuel device repo s.
Proof.
  intros Hpre Hrepo. induction pre as [|c pre IH]; simpl.
  - by rewrite Hrepo.
  - rewrite (Hpre c) by left. apply IH. intros c' Hc'. apply Hpre. by right.
Qed.

(** [process_repository] never hands control back to the loop. *)
Lemma process_repository_halts (W : World) (fuel : nat) (device : string)
    (repo : Candidate) (s : State) :
  ∃ h s', process_repository W fuel device repo s = Halted h s'.
Proof.
  unfold process_repository.
  repeat (rewrite run_bind;
          match goal with
          | |- context [match ?m ?s0 with Ret _ _ => _ | Halted _ _ => _ end] =>
              destruct (m s0) as [? ?|? ?]; [| by eauto]
          end).
  unfold sys_exit. rewrite run_halt. eauto.
Qed.

Lemma find_none {A} (P : A → bool) (l : list A) :
  (∀ x, x ∈ l → P x = false) → List.find P l = None.
Proof.
  induction l as [|x l IH]; intros Hall; [done |].
  simpl. rewrite Hall by left. apply IH. intros y Hy. apply Hall. by right.
Qed.

(** C8.  A full run in which the search succeeds, [repo] is the first
    item the pattern accepts, the default revision [d] is read from the
    manifest, both reference lists arrive, and neither [d] nor any
    fallback of [ROOMSERVICE_BRANCHES] is among the branch and tag
    names: the run ends with [sys.exit()] (no code); what it printed
    ends with the default revision that was tried and every branch and
    tag name; no file was written and no command was run, and every XML
    file, the local manifest included, is as it was. *)
Theorem resolution_failure_writes_nothing (W : World) (fuel : nat)
    (product : string) (depsonly : option string) (s : State)
    (pre post : list Candidate) (repo : Candidate) (d : string)
    (bs ts : list Branch) :
  let device := device product in
  let names := (branch_name <$> bs) ++ (branch_name <$> ts) in
  truthy_opt depsonly = false →
  search_reply W (search_url device) = HttpOk (pre ++ repo :: post) →
  Forall (λ c, re_match W (device_pattern device) (name c) = Some false) pre →
  re_match W (device_pattern device) (name repo) = Some true →
  get_default_revision (st_fs s) = inr d →
  branches_reply W (branches_endpoint repo) = HttpOk bs →
  tags_reply W (tags_endpoint repo) = HttpOk ts →
  d ∉ names →
  Forall (λ f, f ∉ names) (env_fallbacks (ROOMSERVICE_BRANCHES W)) →
  ∃ s',
    main W fuel product depsonly s = Halted (SysExit None) s'
    ∧ st_log s'
      = st_log s
        ++ [announce device;
            HttpGet (search_url device);
            Print ("Found repository: " +:+ name repo);
            Print ("Default revision: " +:+ d);
            Print "Checking branch info";
            HttpGet (branches_endpoint repo);
            HttpGet (tags_endpoint repo)]
        ++ bail_out_lines d (name repo) names
    ∧ xml_files (st_fs s') = xml_files (st_fs s)
    ∧ parse_xml (st_fs s') roomservice_xml = parse_xml (st_fs s) roomservice_xml.
Proof.
  intros device names Hdeps Hsearch Hpre Hrepo Hdefault Hbranches Htags Hd Hfallbacks.
  rewrite Forall_forall in Hpre. rewrite Forall_forall in Hfallbacks.
  rewrite (main_search_ok W fuel product depsonly s (pre ++ repo :: post)) by done.
  rewrite run_bind. fold device.
  rewrite find_repository_first by done.
  unfold process_repository. run.
  rewrite get_default_revision_ensured, Hdefault. unfold lift_result. run.
  unfold resolve_revision. rewrite run_bind, fetch_refs_run.
  cbn zeta. rewrite Hbranches.
  rewrite bool_decide_eq_false_2
    by (intros Hin; apply Hd, elem_of_app; by left).
  rewrite Htags.
  rewrite choose_fallback_run
    by (rewrite has_branch_app; by apply bool_decide_eq_false_2).
  rewrite find_none
    by (intros f Hf; rewrite has_branch_app;
        apply bool_decide_eq_false_2; by apply Hfallbacks).
  rewrite fmap_app. eexists. split; [reflexivity |].
  unfold log_more. cbn [st_fs st_log]. fold names.
  split; [by rewrite <- !app_assoc |].
  unfold parse_xml. by rewrite xml_files_ensured.
Qed.

Example default_revision_example :
  get_default_revision (st_fs checkout) = inr "lineage-20".
Proof. vm_compute. reflexivity. Qed.

Lemma resolution_failure_writes_nothing_witness :
  ∃ s', main github 0 "lineage_bacon" None checkout = Halted (SysExit None) s'
        ∧ xml_files (st_fs s') = xml_files (st_fs checkout).
Proof.
  destruct (resolution_failure_writes_nothing github 0 "lineage_bacon" None checkout
              [bacon_kernel_repo] [] bacon_repo "lineage-20"
              [{| branch_name := "main" |}]
              [{| branch_name := "lineage-20-release" |}])
    as (s' & Hrun & _ & Hxml & _).
  - reflexivity.
  - reflexivity.
  - apply (bool_decide_unpack _). vm_compute. exact I.
  - vm_compute. reflexivity.
  - vm_compute. reflexivity.
  - reflexivity.
  - reflexivity.
  - apply (bool_decide_unpack _). vm_compute. exact I.
  - apply (bool_decide_unpack _). vm_compute. exact I.
  - exists s'. split; [exact Hrun | exact Hxml].
Defined.

(** ** Search-result filter *)

(** C6, at the input where the code departs from it.  The device name
    [a.b] is interpolated into the pattern as it is, so its dot matches
    any character: the filter accepts [android_device_acme_aXb], which
    the literal comparison rejects, and the loop processes that
    repository ahead of the one really named after the device.  Line 263
    then strips the literal ["_a.b"], which is not there. *)
Theorem device_name_read_as_pattern :
  device_filter "a.b" "android_device_acme_aXb" = Some true
  ∧ literal_device_filter "a.b" "android_device_acme_aXb" = false
  ∧ literal_device_filter "a.b" "android_device_acme_a.b" = true
  ∧ (∀ (fuel : nat) (s : State),
        find_repository offline fuel "a.b" [lookalike_repo; dotted_repo] s
        = process_repository offline fuel "a.b" lookalike_repo s)
  ∧ PyStr.replace ("_" +:+ "a.b") ""
      (PyStr.replace "android_device_" "" "android_device_acme_aXb")
    = "acme_aXb".
Proof.
  split; [vm_compute; reflexivity |].
  split; [vm_compute; reflexivity |].
  split; [vm_compute; reflexivity |].
  split; [| vm_compute; reflexivity].
  intros fuel s.
  apply (find_repository_first offline fuel "a.b" [] [dotted_repo] lookalike_repo s).
  - intros c Hc. by apply elem_of_nil in Hc.
  - vm_compute. reflexivity.
Qed.

Lemma parse_atom_plain (c : ascii) (rest : string) :
  PyRe.special c = false → PyRe.parse_atom (String c rest) = Some (PyRe.AChar c, rest).
Proof.
  destruct c as [[] [] [] [] [] [] [] []]; intros H; try discriminate H; reflexivity.
Qed.

Lemma parse_quant_plain (c : ascii) (rest : string) :
  PyRe.special c = false → PyRe.parse_quant (String c rest) = Some (PyRe.QOne, String c rest).
Proof.
  destruct c as [[] [] [] [] [] [] [] []]; intros H; try discriminate H; reflexivity.
Qed.

Lemma not_anchor_plain (c : ascii) :
  PyRe.special c = false → Ascii.eqb c "^" = false ∧ Ascii.eqb c "$" = false.
Proof.
  destruct c as [[] [] [] [] [] [] [] []]; intros H; try discriminate H; split; reflexivity.
Qed.

Lemma parse_quant_plain_then (d rest : string) :
  plain d → PyRe.parse_quant rest = Some (PyRe.QOne, rest) →
  PyRe.parse_quant (d +:+ rest) = Some (PyRe.QOne, d +:+ rest).
Proof.
  intros Hd Hrest. destruct d as [|c d]; [done |].
  rewrite append_String. apply parse_quant_plain. by inversion Hd.
Qed.

Lemma parse_pieces_literal (d rest : string) (fuel : nat) :
  plain d → PyRe.parse_quant rest = Some (PyRe.QOne, rest) →
  PyRe.parse_pieces (String.length d + fuel) (d +:+ rest)
  = (literal_pieces d ++.) <$> PyRe.parse_pieces fuel rest.
Proof.
  intros Hd Hrest. induction d as [|c d IH].
  - simpl. rewrite append_empty_l. by destruct (PyRe.parse_pieces fuel rest).
  - inversion Hd as [|? ? Hc Hd']; subst.
    rewrite append_String. cbn [String.length Nat.add PyRe.parse_pieces].
    destruct (not_anchor_plain c Hc) as [-> ->].
    rewrite parse_atom_plain by done. cbn [mbind option_bind].
    rewrite parse_quant_plain_then by done. cbn [mbind option_bind].
    rewrite IH by done.
    destruct (PyRe.parse_pieces fuel rest); reflexivity.
Qed.

Lemma parse_pieces_frame (rest : string) (fuel : nat) :
  PyRe.parse_quant rest = Some (PyRe.QOne, rest) →
  PyRe.parse_pieces (18 + fuel) ("^android_device_[^_]*_" +:+ rest)
  = (frame_pieces ++.) <$> PyRe.parse_pieces fuel rest.
Proof.
  intros Hrest. rewrite !append_String, append_empty_l.
  cbn -[literal_pieces frame_pieces]. rewrite Hrest.
  cbn -[literal_pieces frame_pieces].
  by destruct (PyRe.parse_pieces fuel rest).
Qed.

Lemma plain_quant_end (d : string) :
  plain d → PyRe.parse_quant (d +:+ "$") = Some (PyRe.QOne, d +:+ "$").
Proof. intros Hd. by apply parse_quant_plain_then. Qed.

Lemma parse_device_pattern (device : string) :
  plain device →
  PyRe.parse (device_pattern device)
  = Some (frame_pieces ++ literal_pieces device ++ [PyRe.PEol]).
Proof.
  intros Hd. unfold PyRe.parse, device_pattern.
  rewrite !length_append.
  change (String.length "^android_device_[^_]*_") with (18 + 4).
  change (String.length "$") with 1.
  rewrite <- Nat.add_assoc.
  rewrite parse_pieces_frame by (by apply plain_quant_end).
  replace (4 + (String.length device + 1)) with (String.length device + 5) by lia.
  rewrite parse_pieces_literal by done.
  reflexivity.
Qed.

(** For a device name without pattern syntax the script's filter is the
    literal comparison. *)
Lemma device_filter_plain (device name : string) :
  plain device →
  device_filter device name = Some (literal_device_filter device name).
Proof.
  intros Hd. unfold device_filter, PyRe.re_match, literal_device_filter.
  by rewrite parse_device_pattern.
Qed.

(** What the literal filter accepts, name by name. *)
Lemma append_empty_r (s : string) : s +:+ "" = s.
Proof. induction s as [|c s IH]; [done | by rewrite append_String, IH]. Qed.

Lemma match_here_one (a : PyRe.atom) (ps : list PyRe.piece) (b : bool) (s : string) :
  PyRe.match_here (PyRe.PAtom a PyRe.QOne :: ps) b s
  = match s with
    | String c s1 => PyRe.atom_accepts a c && PyRe.match_here ps false s1
    | EmptyString => false
    end.
Proof. reflexivity. Qed.

Lemma match_here_star (a : PyRe.atom) (ps : list PyRe.piece) (b : bool) (s : string) :
  PyRe.match_here (PyRe.PAtom a PyRe.QStar :: ps) b s
  = PyRe.match_here ps b s
    || match s with
       | String c s1 => PyRe.atom_accepts a c && PyRe.match_here (PyRe.PAtom a PyRe.QStar :: ps) false s1
       | EmptyString => false
       end.
Proof.
  destruct s as [|c s1]; [reflexivity |].
  cbn [PyRe.match_here]. f_equal. f_equal.
  match goal with
  | |- ?F false s1 = ?G true s1 =>
      assert (∀ s f, F false s = G f s) as Hloop; [| apply Hloop]
  end.
  induction s as [|c0 s2 IH]; intros f; cbn; rewrite andb_false_r; [done |].
  by rewrite (IH false).
Qed.

Lemma match_here_literal (c : ascii) (d : string) (ps : list PyRe.piece) (b : bool) (s : string) :
  PyRe.match_here (literal_pieces (String c d) ++ ps) b s = true
  ↔ ∃ rest, s = String c d +:+ rest ∧ PyRe.match_here ps false rest = true.
Proof.
  revert c b s. induction d as [|c' d IH]; intros c b s.
  - change (literal_pieces (String c "") ++ ps) with (PyRe.PAtom (PyRe.AChar c) PyRe.QOne :: ps).
    rewrite match_here_one. destruct s as [|x s1].
    + split; [done | by intros (rest & ? & _)].
    + rewrite andb_true_iff. split.
      * intros [Hx Hrest]. apply Ascii.eqb_eq in Hx as <-. by exists s1.
      * intros (rest & Heq & Hrest). rewrite append_String, append_empty_l in Heq.
        injection Heq as -> ->. split; [apply Ascii.eqb_refl | done].
  - change (literal_pieces (String c (String c' d)) ++ ps)
      with (PyRe.PAtom (PyRe.AChar c) PyRe.QOne :: (literal_pieces (String c' d) ++ ps)).
    rewrite match_here_one. destruct s as [|x s1].
    + split; [done | by intros (rest & ? & _)].
    + rewrite andb_true_iff, IH. split.
      * intros [Hx (rest & -> & Hrest)]. apply Ascii.eqb_eq in Hx as <-. by exists rest.
      * intros (rest & Heq & Hrest). rewrite append_String in Heq.
        injection Heq as -> ->. split; [apply Ascii.eqb_refl | eauto].
Qed.

Lemma match_here_tail (d : string) (b : bool) (s : string) :
  PyRe.match_here (literal_pieces d ++ [PyRe.PEol]) b s = true
  ↔ s = d ∨ s = d +:+ String PyRe.newline "".
Proof.
  destruct d as [|c d].
  - change (literal_pieces "" ++ [PyRe.PEol]) with [PyRe.PEol]. cbn [PyRe.match_here].
    rewrite andb_true_r. unfold PyRe.at_end.
    destruct s as [|x [|y s]]; rewrite ?append_empty_l.
    + split; [by left | done].
    + rewrite Ascii.eqb_eq. split.
      * intros ->. by right.
      * intros [? | [= ->]]; done.
    + split; [done | intros [? | ?]; done].
  - rewrite match_here_literal. split.
    + intros (rest & -> & Hrest). cbn [PyRe.match_here] in Hrest.
      rewrite andb_true_r in Hrest. unfold PyRe.at_end in Hrest.
      destruct rest as [|x [|y rest]]; [| | done].
      * left. by rewrite append_empty_r.
      * apply Ascii.eqb_eq in Hrest as ->. by right.
    + intros [-> | ->].
      * exists "". split; [by rewrite append_empty_r | done].
      * by eexists.
Qed.

(** The star over [[^_]], then the underscore and the rest. *)
Lemma match_here_manufacturer (ps : list PyRe.piece) (s : string) :
  (∀ b b' s', PyRe.match_here ps b s' = PyRe.match_here ps b' s') →
  ∀ b, PyRe.match_here (PyRe.PAtom (PyRe.ASet true ["_"%char]) PyRe.QStar :: ps) b s = true
       ↔ ∃ m rest, s = m +:+ rest ∧ ("_"%char ∉ chars m)
                   ∧ PyRe.match_here ps false rest = true.
Proof.
  intros Hps. induction s as [|c s IH]; intros b; rewrite match_here_star;
    cbv beta iota.
  - rewrite orb_false_r, (Hps b false). split.
    + intros H. exists "", "". split; [done |]. split; [apply not_elem_of_nil | done].
    + intros (m & rest & Heq & _ & H). destruct m; [| done].
      rewrite append_empty_l in Heq. by subst.
  - rewrite orb_true_iff, andb_true_iff, IH, (Hps b false). split.
    + intros [H | [Hc (m & rest & -> & Hm & H)]].
      * exists "", (String c s). split; [done |].
        split; [apply not_elem_of_nil | done].
      * exists (String c m), rest. rewrite append_String. split; [done |].
        split; [| done]. simpl. apply not_elem_of_cons. split; [| done].
        intros <-. done.
    + intros (m & rest & Heq & Hm & H). destruct m as [|x m].
      * rewrite append_empty_l in Heq. subst. by left.
      * rewrite append_String in Heq. injection Heq as -> ->. right.
        simpl in Hm. apply not_elem_of_cons in Hm as [Hx Hm]. split.
        -- unfold PyRe.atom_accepts. simpl. rewrite orb_false_r.
           destruct (Ascii.eqb_spec x "_"); done.
        -- eauto.
Qed.

(** The literal filter in terms of the name alone: [android_device_],
    a manufacturer without underscore, an underscore, the device name;
    and, as [$] allows, possibly one final PyRe.newline. *)
Lemma literal_device_filter_spec (device name : string) :
  literal_device_filter device name = true
  ↔ ∃ manufacturer,
      ("_"%char ∉ chars manufacturer)
      ∧ (name = "android_device_" +:+ manufacturer +:+ "_" +:+ device
         ∨ name = "android_device_" +:+ manufacturer +:+ "_" +:+ device
                  +:+ String PyRe.newline "").
Proof.
  unfold literal_device_filter, frame_pieces.
  rewrite <- !app_assoc. cbn [app PyRe.match_here andb].
  rewrite match_here_literal.
  change ([PyRe.PAtom (PyRe.ASet true ["_"%char]) PyRe.QStar; PyRe.PAtom (PyRe.AChar "_") PyRe.QOne]
          ++ literal_pieces device ++ [PyRe.PEol])
    with (PyRe.PAtom (PyRe.ASet true ["_"%char]) PyRe.QStar
          :: (literal_pieces (String "_" device) ++ [PyRe.PEol])).
  assert (∀ b b' s', PyRe.match_here (literal_pieces (String "_" device) ++ [PyRe.PEol]) b s'
                     = PyRe.match_here (literal_pieces (String "_" device) ++ [PyRe.PEol]) b' s')
    as Hindep.
  { intros b b' s'.
    change (literal_pieces (String "_" device) ++ [PyRe.PEol])
      with (PyRe.PAtom (PyRe.AChar "_") PyRe.QOne :: (literal_pieces device ++ [PyRe.PEol])).
    by rewrite !match_here_one. }
  split.
  - intros (rest & -> & Hrest).
    apply (match_here_manufacturer _ _ Hindep) in Hrest as (m & rest' & -> & Hm & Htail).
    apply match_here_tail in Htail. exists m. split; [done |].
    destruct Htail as [-> | ->]; [left | right]; done.
  - intros (m & Hm & Hname).
    exists (m +:+ "_" +:+ device +:+
            (if decide (name = "android_device_" +:+ m +:+ "_" +:+ device)
             then "" else String PyRe.newline "")).
    split.
    + destruct Hname as [-> | ->].
      * rewrite decide_True by done. by rewrite append_empty_r.
      * destruct (decide _) as [Heq | _]; [| done].
        exfalso. apply (f_equal String.length) in Heq.
        rewrite !length_append in Heq. simpl in Heq. lia.
    + apply (match_here_manufacturer _ _ Hindep). eexists m, _. split; [done |].
      split; [done |]. apply match_here_tail.
      destruct (decide _).
      * left. by rewrite append_empty_r.
      * by right.
Qed.

Example walker_duplicate_batch :
  ∃ s', fetch_dependencies offline 2 "device/acme/widget" None twice_listed = Ret tt s'
        ∧ entry_count (st_fs s') "vendor/foo" = 2.
Proof. eexists. split; vm_compute; reflexivity. Qed.

(** * Further properties of the code *)

(** ** Manifest store: the element of a record *)

Lemma project_for_remote (fallback_branch : option string) (repo : Dependency) :
  ElementTree.get "remote" (project_for fallback_branch repo) = Some "github".
Proof.
  unfold project_for, ElementTree.get, ElementTree.set, new_project.
  by destruct (branch repo); [| destruct (truthy_opt fallback_branch)].
Qed.

Lemma project_for_name (fallback_branch : option string) (repo : Dependency) :
  ElementTree.get "name" (project_for fallback_branch repo)
  = Some ("LineageOS/" +:+ repository repo).
Proof.
  unfold project_for, ElementTree.get, ElementTree.set, new_project.
  by destruct (branch repo); [| destruct (truthy_opt fallback_branch)].
Qed.

(** The revision a new element carries: the record's own branch, else a
    non-empty fallback, else none at all. *)
Lemma project_for_revision (fallback_branch : option string) (repo : Dependency) :
  ElementTree.get "revision" (project_for fallback_branch repo)
  = match branch repo with
    | Some b => Some b
    | None => if truthy_opt fallback_branch then fallback_branch else None
    end.
Proof.
  unfold project_for, ElementTree.get, ElementTree.set, new_project.
  destruct (branch repo) as [b|]; [done |].
  destruct fallback_branch as [[|c f]|]; done.
Qed.

(** ** Manifest store: entries are only ever added *)

(** [add_to_manifest] never removes or alters what the local manifest
    holds: the document written has the root's tag and attributes, the
    old children in their order, and after them at most one new element
    per record, each a [project] with remote [github]. *)
Theorem add_to_manifest_appends (repositories : list Dependency)
    (fallback_branch : option string) (s : State) :
  ∃ s' new,
    add_to_manifest repositories fallback_branch s = Ret tt s'
    ∧ parse_xml (st_fs s') roomservice_xml = inr (local_document (st_fs s'))
    ∧ tag (local_document (st_fs s')) = tag (local_document (st_fs s))
    ∧ attrib (local_document (st_fs s')) = attrib (local_document (st_fs s))
    ∧ children (local_document (st_fs s')) = children (local_document (st_fs s)) ++ new
    ∧ (List.length new ≤ List.length repositories)%nat
    ∧ Forall (λ e, tag e = "project" ∧ ElementTree.get "remote" e = Some "github") new.
Proof.
  rewrite add_to_manifest_run. eexists. exists (added (st_fs s) fallback_branch repositories).
  split; [reflexivity |]. cbn [st_fs]. rewrite local_document_with_local.
  split.
  { unfold parse_xml, with_local. simpl. by rewrite lookup_insert_eq. }
  split; [done |]. split; [done |]. split; [done |]. split.
  - unfold added, absent. rewrite length_fmap. apply length_filter.
  - unfold added. apply Forall_fmap, Forall_forall. intros repo _. simpl.
    split; [apply project_for_tag | apply project_for_remote].
Qed.

(** The element a record gets (lines 188-205).  In the directory line
    87 creates, a record of the batch whose path is in none of the three
    documents has an element among the children of the document the
    call writes: a [project] with the record's path, the name
    [LineageOS/] followed by the repository, the remote [github], and as
    revision the record's own branch when it has one, whatever the
    fallback is; else the fallback when that is a non-empty string; else
    no revision attribute at all. *)
Theorem add_to_manifest_new_entry (repositories : list Dependency)
    (fallback_branch : option string) (s : State) (repo : Dependency) :
  local_manifests ∈ dirs (st_fs s) →
  repo ∈ repositories →
  is_in_manifest (st_fs s) (target_path repo) = false →
  ∃ s' doc e,
    add_to_manifest repositories fallback_branch s = Ret tt s'
    ∧ st_fs s' = with_local (st_fs s) doc
    ∧ e ∈ children doc
    ∧ tag e = "project"
    ∧ ElementTree.get "path" e = Some (target_path repo)
    ∧ ElementTree.get "name" e = Some ("LineageOS/" +:+ repository repo)
    ∧ ElementTree.get "remote" e = Some "github"
    ∧ ElementTree.get "revision" e
      = match branch repo with
        | Some b => Some b
        | None =>
            match fallback_branch with
            | Some (String c f) => Some (String c f)
            | _ => None
            end
        end.
Proof.
  intros _ Hin Habsent. rewrite add_to_manifest_run.
  eexists. eexists. exists (project_for fallback_branch repo).
  split; [reflexivity |]. cbn [st_fs]. split; [reflexivity |]. split.
  { unfold extend. simpl. apply elem_of_app. right.
    unfold added. apply list_elem_of_fmap. exists repo. split; [done |].
    by apply list_elem_of_filter. }
  split; [apply project_for_tag |]. split; [apply project_for_path |].
  split; [apply project_for_name |]. split; [apply project_for_remote |].
  rewrite project_for_revision. destruct (branch repo); [done |].
  by destruct fallback_branch as [[|c f]|].
Qed.

Lemma add_to_manifest_new_entry_witness :
  ∃ s' doc e,
    add_to_manifest [vendor_foo; pinned_bar] (Some "lineage-20") bare_checkout
    = Ret tt s'
    ∧ st_fs s' = with_local (st_fs bare_checkout) doc
    ∧ e ∈ children doc
    ∧ ElementTree.get "path" e = Some "vendor/bar"
    ∧ ElementTree.get "revision" e = Some "main".
Proof.
  destruct (add_to_manifest_new_entry [vendor_foo; pinned_bar] (Some "lineage-20")
              bare_checkout pinned_bar)
    as (s' & doc & e & Hrun & Hfs & He & _ & Hpath & _ & _ & Hrev).
  - apply (bool_decide_unpack _). vm_compute. exact I.
  - apply list_elem_of_further, list_elem_of_here.
  - vm_compute. reflexivity.
  - exists s', doc, e. repeat split; [exact Hrun | exact Hfs | exact He | exact Hpath
                                      | exact Hrev].
Defined.

(** A batch all of whose paths are already known, on a tree whose
    [roomservice.xml] is missing or does not parse: in the directory
    line 87 creates, the call prints its two lines per record, adds
    nothing, and still writes.  Afterwards [roomservice.xml] exists and
    holds an empty [manifest]; whatever the file held before is gone. *)
Theorem add_to_manifest_nothing_new (repositories : list Dependency)
    (fallback_branch : option string) (s : State) :
  local_manifests ∈ dirs (st_fs s) →
  xml_files (st_fs s) !! roomservice_xml = None →
  Forall (λ repo, is_in_manifest (st_fs s) (target_path repo) = true) repositories →
  add_to_manifest repositories fallback_branch s
  = Ret tt {| st_fs := with_local (st_fs s) ElementTree.empty_manifest;
              st_log := st_log s
                        ++ (repositories ≫= λ repo,
                              [Print ("Checking if " +:+ target_path repo
                                      +:+ " is fetched from " +:+ repository repo);
                               Print ("LineageOS/" +:+ repository repo
                                      +:+ " already fetched to " +:+ target_path repo)])
                        ++ [WriteFile roomservice_xml] |}
  ∧ parse_xml (with_local (st_fs s) ElementTree.empty_manifest) roomservice_xml
    = inr ElementTree.empty_manifest.
Proof.
  intros _ Hmissing Hknown. rewrite add_to_manifest_run. split.
  - assert (added (st_fs s) fallback_branch repositories = []) as ->.
    { unfold added, absent. rewrite filter_none; [done |].
      intros repo Hrepo. rewrite Forall_forall in Hknown.
      by rewrite (Hknown repo Hrepo). }
    rewrite extend_nil.
    assert (local_document (st_fs s) = ElementTree.empty_manifest) as ->.
    { unfold local_document, load_or_empty, parse_xml. by rewrite Hmissing. }
    assert (add_log (st_fs s) fallback_branch repositories
            = repositories ≫= λ repo,
                [Print ("Checking if " +:+ target_path repo
                        +:+ " is fetched from " +:+ repository repo);
                 Print ("LineageOS/" +:+ repository repo
                        +:+ " already fetched to " +:+ target_path repo)]) as ->; [| done].
    induction Hknown as [|repo rest Hrepo Hrest IH]; [done |].
    cbn [add_log mbind list_bind]. by rewrite Hrepo, IH.
  - unfold parse_xml, with_local. simpl. by rewrite lookup_insert_eq.
Qed.

Lemma add_to_manifest_nothing_new_witness :
  add_to_manifest [vendor_foo] (Some "lineage-20") snippet_checkout
  = Ret tt {| st_fs := with_local (st_fs snippet_checkout) ElementTree.empty_manifest;
              st_log := [Print "Checking if vendor/foo is fetched from android_vendor_foo";
                         Print "LineageOS/android_vendor_foo already fetched to vendor/foo";
                         WriteFile roomservice_xml] |}.
Proof.
  apply (add_to_manifest_nothing_new [vendor_foo] (Some "lineage-20") snippet_checkout).
  - apply (bool_decide_unpack _). vm_compute. exact I.
  - vm_compute. reflexivity.
  - apply Forall_singleton. vm_compute. reflexivity.
Defined.

(** ** Dependency walker: the three lists *)

Lemma elem_of_sync_list (fs : FS) (dependencies : list Dependency) (t : string) :
  t ∈ sync_list fs dependencies
  ↔ ∃ d, d ∈ dependencies ∧ target_path d = t
         ∧ (is_in_manifest fs t = false ∨ t ∉ dirs fs).
Proof.
  unfold sync_list. rewrite list_elem_of_bind. split.
  - intros (d & Ht & Hd). exists d. cbn zeta in Ht.
    apply elem_of_app in Ht as [Ht | Ht].
    + destruct (is_in_manifest fs (target_path d)) eqn:Hin;
        [by apply elem_of_nil in Ht |].
      apply list_elem_of_singleton in Ht as ->. auto.
    + destruct (bool_decide (target_path d ∉ dirs fs)) eqn:Hdir;
        [| by apply elem_of_nil in Ht].
      apply list_elem_of_singleton in Ht as ->.
      apply bool_decide_eq_true in Hdir. auto.
  - intros (d & Hd & <- & Hwhy). exists d. split; [| done]. cbn zeta.
    apply elem_of_app. destruct Hwhy as [Hin | Hdir].
    + left. rewrite Hin. by apply list_elem_of_singleton.
    + right. rewrite bool_decide_eq_true_2 by done. by apply list_elem_of_singleton.
Qed.

Lemma length_sync_list (fs : FS) (dependencies : list Dependency) :
  List.length (sync_list fs dependencies)
  = (List.length (absent fs dependencies)
     + List.length (filter (λ d, target_path d ∉ dirs fs) dependencies))%nat.
Proof.
  unfold sync_list, absent.
  induction dependencies as [|d rest IH]; [done |].
  cbn [mbind list_bind]. rewrite !length_app, IH, !filter_cons.
  destruct (is_in_manifest fs (target_path d)) eqn:Hin.
  - rewrite decide_False by done.
    destruct (decide (target_path d ∉ dirs fs)) as [Hdir | Hdir].
    + rewrite bool_decide_eq_true_2 by done. simpl. lia.
    + rewrite bool_decide_eq_false_2 by done. simpl. lia.
  - rewrite decide_True by done.
    destruct (decide (target_path d ∉ dirs fs)) as [Hdir | Hdir].
    + rewrite bool_decide_eq_true_2 by done. simpl. lia.
    + rewrite bool_decide_eq_false_2 by done. simpl. lia.
Qed.

(** The loop of lines 225-231.  The records to add are those whose path
    is in none of the three documents, in file order; every record's
    path is visited afterwards; a path is synced exactly when some record
    names it and it is unknown to the manifests or not a directory; and
    a record that is both contributes its path twice, so the sync list
    is as long as the two groups together. *)
Theorem scan_dependencies_lists (fs : FS) (dependencies : list Dependency) :
  ∃ fetch_list syncable_repos verify_repos,
    scan_dependencies fs dependencies = (fetch_list, syncable_repos, verify_repos)
    ∧ fetch_list
      = filter (λ d, is_in_manifest fs (target_path d) = false) dependencies
    ∧ verify_repos = target_path <$> dependencies
    ∧ (∀ t, t ∈ syncable_repos
            ↔ ∃ d, d ∈ dependencies ∧ target_path d = t
                   ∧ (is_in_manifest fs t = false ∨ t ∉ dirs fs))
    ∧ List.length syncable_repos
      = (List.length fetch_list
         + List.length (filter (λ d, target_path d ∉ dirs fs) dependencies))%nat.
Proof.
  rewrite scan_dependencies_spec. eexists _, _, _. split; [reflexivity |].
  split; [done |]. split; [done |]. split.
  - apply elem_of_sync_list.
  - apply length_sync_list.
Qed.

(** ** Dependency walker: runs that change nothing *)

(** A repository without [lineage.dependencies] ends the walk there: two
    lines are printed and nothing else happens.  A file that is not JSON
    is an uncaught [ValueError], raised before anything is written. *)
Theorem fetch_dependencies_leaf (W : World) (fuel : nat) (repo_path : string)
    (fallback_branch : option string) (s : State) :
  (dep_files (st_fs s) !! (repo_path +:+ "/lineage.dependencies") = None →
   fetch_dependencies W (S fuel) repo_path fallback_branch s
   = Ret tt (log_more s [Print ("Looking for dependencies in " +:+ repo_path);
                         Print (repo_path +:+ " has no additional dependencies.")]))
  ∧ (dep_files (st_fs s) !! (repo_path +:+ "/lineage.dependencies") = Some None →
     fetch_dependencies W (S fuel) repo_path fallback_branch s
     = Halted (Uncaught ValueError)
         (log_more s [Print ("Looking for dependencies in " +:+ repo_path)])).
Proof.
  split; intros Hfile; cbn [fetch_dependencies].
  - by rewrite fetch_dependencies_body_no_file.
  - unfold fetch_dependencies_body. run. rewrite Hfile. unfold raise. by run.
Qed.

Lemma fetch_dependencies_leaf_witness :
  fetch_dependencies offline 1 "vendor/foo" None empty_state
  = Ret tt (log_more empty_state
              [Print "Looking for dependencies in vendor/foo";
               Print "vendor/foo has no additional dependencies."]).
Proof.
  apply (proj1 (fetch_dependencies_leaf offline 0 "vendor/foo" None empty_state)).
  reflexivity.
Defined.

(** One call on a repository all of whose dependencies are known and on
    disk. *)
Lemma fetch_dependencies_body_present (W : World)
    (self : string → option string → M unit) (repo_path : string)
    (fallback_branch : option string) (s : State) (ds : list Dependency) :
  dep_files (st_fs s) !! (repo_path +:+ "/lineage.dependencies") = Some (Some ds) →
  Forall (λ d, is_in_manifest (st_fs s) (target_path d) = true
               ∧ target_path d ∈ dirs (st_fs s)) ds →
  fetch_dependencies_body W self repo_path fallback_branch s
  = for_each (target_path <$> ds) (λ deprepo, self deprepo None)
      (log_more s [Print ("Looking for dependencies in " +:+ repo_path)]).
Proof.
  intros Hfile Hall. rewrite (fetch_dependencies_body_file W _ _ _ _ ds) by done.
  rewrite Forall_forall in Hall.
  assert (absent (st_fs s) ds = []) as ->.
  { unfold absent. apply filter_none. intros d Hd.
    destruct (Hall d Hd) as [-> _]. done. }
  assert (sync_list (st_fs s) ds = []) as ->.
  { destruct (sync_list (st_fs s) ds) as [|t l] eqn:Hsync; [done |].
    assert (t ∈ sync_list (st_fs s) ds) as Ht by (rewrite Hsync; left).
    apply elem_of_sync_list in Ht as (d & Hd & <- & Hwhy).
    destruct (Hall d Hd) as [Hin Hdir]. destruct Hwhy; [congruence | done]. }
  cbn [is_nil]. by run.
Qed.

(** Running the walker again over a tree that is complete: when every
    dependency of a repository is in a manifest and checked out, the call
    writes nothing and runs no command; it prints its first line and goes
    on to the dependencies, each without fallback revision. *)
Theorem fetch_dependencies_all_present (W : World) (fuel : nat) (repo_path : string)
    (fallback_branch : option string) (s : State) (ds : list Dependency) :
  dep_files (st_fs s) !! (repo_path +:+ "/lineage.dependencies") = Some (Some ds) →
  Forall (λ d, is_in_manifest (st_fs s) (target_path d) = true
               ∧ target_path d ∈ dirs (st_fs s)) ds →
  fetch_dependencies W (S fuel) repo_path fallback_branch s
  = for_each (target_path <$> ds) (λ deprepo, fetch_dependencies W fuel deprepo None)
      (log_more s [Print ("Looking for dependencies in " +:+ repo_path)]).
Proof.
  intros Hfile Hall. cbn [fetch_dependencies].
  by apply fetch_dependencies_body_present.
Qed.

Lemma fetch_dependencies_all_present_witness :
  fetch_dependencies offline 2 "device/acme/widget" (Some "lineage-20") widget_complete
  = for_each ["vendor/foo"] (λ deprepo, fetch_dependencies offline 1 deprepo None)
      (log_more widget_complete
                [Print "Looking for dependencies in device/acme/widget"]).
Proof.
  apply (fetch_dependencies_all_present offline 1 "device/acme/widget"
           (Some "lineage-20") widget_complete [vendor_foo]).
  - vm_compute. reflexivity.
  - apply Forall_singleton. split.
    + vm_compute. reflexivity.
    + apply (bool_decide_unpack _). vm_compute. exact I.
Defined.

(** ** Dependency walker: a repository that depends on itself *)

(** No guard stops a cycle.  When the first record of a repository's
    dependency file names the repository itself, and all its records are
    known and on disk, the walker never returns: whatever the bound on
    the depth of recursion, the call uses it up, having changed nothing
    on disk. *)
Theorem fetch_dependencies_self_cycle (W : World) (repo_path : string)
    (d : Dependency) (rest : list Dependency) (fuel : nat)
    (fallback_branch : option string) (s : State) :
  dep_files (st_fs s) !! (repo_path +:+ "/lineage.dependencies")
    = Some (Some (d :: rest)) →
  target_path d = repo_path →
  Forall (λ d, is_in_manifest (st_fs s) (target_path d) = true
               ∧ target_path d ∈ dirs (st_fs s)) (d :: rest) →
  ∃ s', fetch_dependencies W fuel repo_path fallback_branch s = Halted OutOfFuel s'
        ∧ st_fs s' = st_fs s.
Proof.
  intros Hfile Hself Hall. revert fallback_branch s Hfile Hall.
  induction fuel as [|fuel IH]; intros fallback_branch s Hfile Hall.
  - by exists s.
  - cbn [fetch_dependencies].
    rewrite (fetch_dependencies_body_present W _ _ _ _ (d :: rest)) by done.
    rewrite fmap_cons, Hself. cbn [for_each]. rewrite run_bind.
    destruct (IH None (log_more s [Print ("Looking for dependencies in " +:+ repo_path)]))
      as (s' & -> & Hfs); [done | done |].
    by exists s'.
Qed.

Lemma fetch_dependencies_self_cycle_witness :
  ∃ s', fetch_dependencies offline 50 "vendor/foo" None vendor_foo_loop
        = Halted OutOfFuel s'
        ∧ st_fs s' = st_fs vendor_foo_loop.
Proof.
  apply (fetch_dependencies_self_cycle offline "vendor/foo" vendor_foo [] 50 None
           vendor_foo_loop).
  - vm_compute. reflexivity.
  - reflexivity.
  - apply Forall_singleton. split.
    + vm_compute. reflexivity.
    + apply (bool_decide_unpack _). vm_compute. exact I.
Defined.

(** ** What the walker and the dependencies-only mode never do *)

Section Confined.

Context (H : Halt → Prop) (P : Event → Prop).

Lemma adds_only_refl (s : State) : adds_only P s s.
Proof. exists []. by rewrite app_nil_r. Qed.

Lemma adds_only_same_log (s s' : State) : st_log s' = st_log s → adds_only P s s'.
Proof. intros Hlog. exists []. by rewrite app_nil_r. Qed.

Lemma adds_only_trans (s1 s2 s3 : State) :
  adds_only P s1 s2 → adds_only P s2 s3 → adds_only P s1 s3.
Proof.
  intros (n1 & H1 & Hn1) (n2 & H2 & Hn2). exists (n1 ++ n2).
  split; [by rewrite H2, H1, app_assoc | by apply Forall_app].
Qed.

Lemma confined_ret {A} (a : A) : confined True H P (mret a : M A).
Proof. intros s. split; [done | apply adds_only_refl]. Qed.

Lemma confined_bind {A B} (R R' : Prop) (m : M A) (f : A → M B) :
  confined R H P m → (∀ a, confined R' H P (f a)) → confined R' H P (m ≫= f).
Proof.
  intros Hm Hf s. rewrite run_bind. specialize (Hm s).
  destruct (m s) as [a s1|h s1]; [| done].
  destruct Hm as [_ H1]. specialize (Hf a s1).
  destruct (f a s1) as [b s2|h s2]; destruct Hf as [? H2];
    (split; [done | by eapply adds_only_trans]).
Qed.

Lemma confined_bind_stops {A B} (m : M A) (f : A → M B) :
  confined False H P m → confined False H P (m ≫= f).
Proof.
  intros Hm s. rewrite run_bind. specialize (Hm s).
  destruct (m s) as [a s1|h s1]; [by destruct Hm | done].
Qed.

Lemma confined_may_return {A} (R : Prop) (m : M A) :
  confined False H P m → confined R H P m.
Proof.
  intros Hm s. specialize (Hm s).
  destruct (m s) as [a s1|h s1]; [by destruct Hm | done].
Qed.

Lemma confined_emit (e : Event) : P e → confined True H P (emit e).
Proof.
  intros He s. rewrite run_emit. split; [done |]. exists [e]. split; [done |].
  by apply Forall_singleton.
Qed.

Lemma confined_get_fs : confined True H P get_fs.
Proof. intros s. split; [done | apply adds_only_refl]. Qed.

Lemma confined_put_fs (fs : FS) : confined True H P (put_fs fs).
Proof. intros s. split; [done | by apply adds_only_same_log]. Qed.

Lemma confined_halt {A} (R : Prop) (h : Halt) : H h → confined R H P (halt (A := A) h).
Proof. intros Hh s. split; [done | apply adds_only_refl]. Qed.

Lemma confined_if {A} (R : Prop) (b : bool) (m1 m2 : M A) :
  confined R H P m1 → confined R H P m2 → confined R H P (if b then m1 else m2).
Proof. by destruct b. Qed.

Lemma confined_for_each {A} (l : list A) (f : A → M unit) :
  (∀ a, confined True H P (f a)) → confined True H P (for_each l f).
Proof.
  intros Hf. induction l as [|x l IH]; [apply confined_ret |].
  cbn [for_each]. eapply confined_bind; [apply Hf | by intros _].
Qed.

End Confined.

Lemma add_log_prints (fs : FS) (fallback_branch : option string)
    (repositories : list Dependency) :
  Forall walker_event (add_log fs fallback_branch repositories).
Proof.
  induction repositories as [|repo rest IH]; [by apply Forall_nil_2 |].
  cbn [add_log]. apply Forall_cons. split; [done |]. apply Forall_app. split; [| done].
  destruct (is_in_manifest fs (target_path repo)); [by apply Forall_singleton |].
  apply Forall_cons. split; [done |].
  destruct (branch repo); [by apply Forall_nil_2 |].
  by destruct (truthy_opt fallback_branch); apply Forall_singleton.
Qed.

Lemma confined_add_to_manifest (H : Halt → Prop) (repositories : list Dependency)
    (fallback_branch : option string) :
  confined True H walker_event (add_to_manifest repositories fallback_branch).
Proof.
  intros s. rewrite add_to_manifest_run. split; [done |].
  eexists. split; [reflexivity |]. apply Forall_app. split.
  - apply add_log_prints.
  - by apply Forall_singleton.
Qed.

Lemma startswith_append (p s : string) : PyStr.startswith p (p +:+ s) = true.
Proof.
  induction p as [|c p IH]; [done |].
  rewrite append_String. simpl. by rewrite Ascii.eqb_refl.
Qed.

Lemma confined_sync (W : World) (H : Halt → Prop) (paths : string) :
  confined True H walker_event (os_system W ("repo sync --force-sync " +:+ paths)).
Proof.
  intros s. rewrite run_os_system. split; [done |].
  eexists. split; [reflexivity |]. apply Forall_singleton. apply startswith_append.
Qed.

Lemma confined_fetch_dependencies (W : World) (fuel : nat) (repo_path : string)
    (fallback_branch : option string) :
  confined True not_exit walker_event
    (fetch_dependencies W fuel repo_path fallback_branch).
Proof.
  revert repo_path fallback_branch.
  induction fuel as [|fuel IH]; intros repo_path fallback_branch.
  - by apply confined_halt.
  - cbn [fetch_dependencies]. unfold fetch_dependencies_body.
    eapply confined_bind; [by apply confined_emit | intros _].
    eapply confined_bind; [apply confined_get_fs | intros fs].
    eapply (confined_bind _ _ True);
      [| intros [syncable_repos verify_repos]].
    + destruct (dep_files fs !! (repo_path +:+ "/lineage.dependencies")) as [[ds|]|].
      * eapply confined_bind; [apply confined_ret | intros dependencies].
        destruct (scan_dependencies fs dependencies)
          as [[fetch_list syncable_repos] verify_repos].
        eapply confined_bind; [| intros _; apply confined_ret].
        apply confined_if; [apply confined_ret |].
        eapply confined_bind; [by apply confined_emit | intros _].
        apply confined_add_to_manifest.
      * eapply (confined_bind _ _ True); [by apply confined_halt | intros dependencies].
        destruct (scan_dependencies fs dependencies)
          as [[fetch_list syncable_repos] verify_repos].
        eapply confined_bind; [| intros _; apply confined_ret].
        apply confined_if; [apply confined_ret |].
        eapply confined_bind; [by apply confined_emit | intros _].
        apply confined_add_to_manifest.
      * eapply confined_bind; [by apply confined_emit | intros _; apply confined_ret].
    + eapply confined_bind.
      * apply confined_if; [apply confined_ret |].
        eapply confined_bind; [by apply confined_emit | intros _].
        apply confined_sync.
      * intros _. apply confined_for_each. intros deprepo. apply IH.
Qed.

Lemma confined_mono {A} (R : Prop) (H H' : Halt → Prop) (P : Event → Prop) (m : M A) :
  (∀ h, H h → H' h) → confined R H P m → confined R H' P m.
Proof.
  intros HH Hm s. specialize (Hm s).
  destruct (m s) as [a s1|h s1]; [done |]. destruct Hm. auto.
Qed.

(** The walker never calls [sys.exit] and never sends a request.  From
    any state, with any bound, it returns or stops on an uncaught error
    (or on the bound), and all it has done by then is print lines, write
    [roomservice.xml] and run [repo sync --force-sync ...] commands. *)
Theorem fetch_dependencies_effects (W : World) (fuel : nat) (repo_path : string)
    (fallback_branch : option string) (s : State) :
  ∃ s' new,
    (fetch_dependencies W fuel repo_path fallback_branch s = Ret tt s'
     ∨ ∃ h, fetch_dependencies W fuel repo_path fallback_branch s = Halted h s'
            ∧ not_exit h)
    ∧ st_log s' = st_log s ++ new
    ∧ Forall walker_event new.
Proof.
  pose proof (confined_fetch_dependencies W fuel repo_path fallback_branch s) as Hc.
  destruct (fetch_dependencies W fuel repo_path fallback_branch s) as [[] s'|h s'].
  - destruct Hc as [_ (new & Hlog & Hnew)]. exists s', new.
    split; [by left | done].
  - destruct Hc as [Hh (new & Hlog & Hnew)]. exists s', new.
    split; [right; by exists h | done].
Qed.

Lemma confined_ensure_local_manifests (H : Halt → Prop) (P : Event → Prop) :
  confined True H P ensure_local_manifests.
Proof.
  intros s. rewrite run_ensure_local_manifests. split; [done |].
  by apply adds_only_same_log.
Qed.

(** Dependencies-only mode.  With a non-empty second argument the run
    sends no request at all, and it never reaches the end of the script:
    it stops by [sys.exit()] without a code, by an uncaught error or on
    the bound, having only printed, written [roomservice.xml] and run
    [repo sync] commands. *)
Theorem depsonly_effects (W : World) (fuel : nat) (product : string)
    (depsonly : option string) (s : State) :
  truthy_opt depsonly = true →
  ∃ h s' new,
    main W fuel product depsonly s = Halted h s'
    ∧ not_exit_code h
    ∧ st_log s' = st_log s ++ new
    ∧ Forall walker_event new.
Proof.
  intros Hdeps.
  assert (confined False not_exit_code walker_event (main W fuel product depsonly))
    as Hmain.
  { unfold main. rewrite Hdeps.
    eapply confined_bind; [apply confined_ret | intros _].
    eapply confined_bind; [apply confined_ret | intros repositories].
    eapply confined_bind; [apply confined_ensure_local_manifests | intros _].
    apply confined_bind_stops.
    eapply confined_bind; [apply confined_get_fs | intros fs].
    eapply (confined_bind _ _ True).
    { destruct (get_from_manifest W fs (device product)) as [e|o];
        [by apply confined_halt | apply confined_ret]. }
    intros repo_path. eapply (confined_bind _ _ True).
    - apply confined_if; [| by apply confined_emit].
      eapply confined_mono; [| apply confined_fetch_dependencies].
      by intros [].
    - intros _. by apply confined_halt. }
  specialize (Hmain s).
  destruct (main W fuel product depsonly s) as [a s'|h s']; [by destruct Hmain |].
  destruct Hmain as [Hh (new & Hlog & Hnew)]. by exists h, s', new.
Qed.

Lemma depsonly_effects_witness :
  ∃ h s' new,
    main offline 3 "lineage_widget" (Some "true") widget_state = Halted h s'
    ∧ not_exit_code h
    ∧ st_log s' = st_log widget_state ++ new
    ∧ Forall walker_event new.
Proof.
  apply (depsonly_effects offline 3 "lineage_widget" (Some "true") widget_state).
  reflexivity.
Defined.

Lemma get_from_manifest_ensured (W : World) (fs : FS) (device : string) :
  get_from_manifest W (ensured fs) device = get_from_manifest W fs device.
Proof. unfold ensured. by destruct (bool_decide _). Qed.

(** Dependencies-only mode on a tree that was never fetched.  When the
    lookup in the local manifest comes back empty (no project of that
    device, or one without a usable path), the run prints its question
    and ends with [sys.exit()]; nothing is requested, written or run. *)
Theorem depsonly_without_device_tree (W : World) (fuel : nat) (product : string)
    (depsonly repo_path : option string) (s : State) :
  truthy_opt depsonly = true →
  get_from_manifest W (st_fs s) (device product) = inr repo_path →
  truthy_opt repo_path = false →
  main W fuel product depsonly s
  = Halted (SysExit None)
      {| st_fs := ensured (st_fs s);
         st_log := st_log s
                   ++ [Print "Trying dependencies-only mode on a non-existing device tree?"] |}.
Proof.
  intros Hdeps Hlookup Hpath. unfold main. rewrite Hdeps. run.
  rewrite run_ensure_local_manifests. run.
  rewrite get_from_manifest_ensured, Hlookup. unfold lift_result. run.
  rewrite Hpath. run. unfold sys_exit. by run.
Qed.

Lemma depsonly_without_device_tree_witness :
  main offline 3 "lineage_widget" (Some "true") empty_state
  = Halted (SysExit None)
      {| st_fs := ensured (st_fs empty_state);
         st_log := [Print "Trying dependencies-only mode on a non-existing device tree?"] |}.
Proof.
  apply (depsonly_without_device_tree offline 3 "lineage_widget" (Some "true") None
           empty_state).
  - reflexivity.
  - vm_compute. reflexivity.
  - reflexivity.
Defined.

(** ** Main program: no repository for the device *)

Lemma find_repository_none (W : World) (fuel : nat) (device : string)
    (repositories : list Candidate) (s : State) :
  Forall (λ c, re_match W (device_pattern device) (name c) = Some false) repositories →
  find_repository W fuel device repositories s = Ret tt s.
Proof.
  induction 1 as [|c rest Hc Hrest IH]; [done |].
  cbn [find_repository]. by rewrite Hc.
Qed.

(** A full run whose search succeeds but returns no item the pattern
    accepts (an empty reply among them) reaches the end of the script:
    it prints that the repository was not found and ends normally, with
    one request made, no file written and no command run. *)
Theorem main_repository_not_found (W : World) (fuel : nat) (product : string)
    (depsonly : option string) (s : State) (items : list Candidate) :
  truthy_opt depsonly = false →
  search_reply W (search_url (device product)) = HttpOk items →
  Forall (λ c, re_match W (device_pattern (device product)) (name c) = Some false)
         items →
  main W fuel product depsonly s
  = Ret tt {| st_fs := ensured (st_fs s);
              st_log := st_log s ++ [announce (device product);
                                     HttpGet (search_url (device product));
                                     Print (not_found_line (device product))] |}.
Proof.
  intros Hdeps Hreply Hnone.
  rewrite (main_search_ok W fuel product depsonly s items) by done.
  rewrite run_bind, find_repository_none by done. run.
  by rewrite <- app_assoc.
Qed.

Lemma main_repository_not_found_witness :
  main github 0 "lineage_hammerhead" None checkout
  = Ret tt {| st_fs := ensured (st_fs checkout);
              st_log := [announce "hammerhead";
                         HttpGet (search_url "hammerhead");
                         Print (not_found_line "hammerhead")] |}.
Proof.
  apply (main_repository_not_found github 0 "lineage_hammerhead" None checkout
           [bacon_kernel_repo; bacon_repo]).
  - reflexivity.
  - reflexivity.
  - apply (bool_decide_unpack _). vm_compute. exact I.
Defined.

(** ** Dependencies-only mode: which tree is walked *)

(** The lookup of lines 126-137 goes through the [project] children of
    the local manifest in document order and answers with the [path] of
    the first one whose name the pattern finds; projects before it must
    have a name, or the lookup raises.  Without any project (a missing
    file among the cases) it answers [None]. *)
Theorem get_from_manifest_first (W : World) (fs : FS) (device : string) :
  (ElementTree.findall "project" (local_document fs) = [] →
   get_from_manifest W fs device = inr None)
  ∧ (∀ (pre post : list Element) (e : Element) (n : string),
        ElementTree.findall "project" (local_document fs) = pre ++ e :: post →
        Forall (λ p, ∃ m, ElementTree.get "name" p = Some m
                          ∧ re_search W (local_pattern device) m = Some false) pre →
        ElementTree.get "name" e = Some n →
        re_search W (local_pattern device) n = Some true →
        get_from_manifest W fs device = inr (ElementTree.get "path" e)).
Proof.
  unfold get_from_manifest. fold (local_document fs) (local_pattern device).
  split.
  - by intros ->.
  - intros pre post e n -> Hpre He Hn.
    induction Hpre as [|p pre (m & Hm & Hno) Hpre IH]; simpl.
    + by rewrite He, Hn.
    + by rewrite Hm, Hno.
Qed.

Lemma get_from_manifest_first_witness :
  get_from_manifest offline (st_fs widget_recorded) "widget"
  = inr (Some "device/acme/widget").
Proof.
  change (Some "device/acme/widget")
    with (ElementTree.get "path"
            (Elem "project" {[ "path" := "device/acme/widget";
                               "name" := "LineageOS/android_device_acme_widget" ]} [])).
  apply (proj2 (get_from_manifest_first offline (st_fs widget_recorded) "widget")
           [Elem "project" {[ "path" := "vendor/foo";
                              "name" := "LineageOS/android_vendor_foo" ]} []]
           []
           (Elem "project" {[ "path" := "device/acme/widget";
                              "name" := "LineageOS/android_device_acme_widget" ]} [])
           "LineageOS/android_device_acme_widget").
  - vm_compute. reflexivity.
  - apply Forall_singleton. exists "LineageOS/android_vendor_foo".
    split; vm_compute; reflexivity.
  - vm_compute. reflexivity.
  - vm_compute. reflexivity.
Defined.

(** ** Main program: the path on which the repository is recorded *)

Lemma resolve_revision_fs (W : World) (repo : Candidate) (default_revision : string)
    (s s2 : State) (fallback_branch : option string) :
  resolve_revision W repo default_revision s = Ret fallback_branch s2 →
  st_fs s2 = st_fs s.
Proof.
  unfold resolve_revision. rewrite run_bind, fetch_refs_run. cbn zeta.
  assert (∀ result s1, st_fs s1 = st_fs s →
            choose_fallback W (name repo) default_revision result s1
            = Ret fallback_branch s2 → st_fs s2 = st_fs s) as Hchoose.
  { intros result s1 Hs1.
    destruct (has_branch result default_revision) eqn:Hdefault.
    - unfold choose_fallback. rewrite Hdefault. by intros [= _ <-].
    - rewrite choose_fallback_run by done.
      destruct (List.find _ _); [| done]. by intros [= _ <-]. }
  destruct (branches_reply W _); [done |].
  destruct (bool_decide _); [by apply Hchoose |].
  destruct (tags_reply W _); [done | by apply Hchoose].
Qed.

(** Once a revision is settled (the default, so no fallback, or a
    fallback), the main program records the repository under
    [device/<manufacturer>/<device>] unless that path is already known,
    syncs that path, and starts the walker there with the very fallback
    it wrote; after the walker it prints [Done] and exits.  A new entry
    carries the fallback as its revision, and no revision when there is
    no fallback. *)
Theorem process_repository_records_then_walks (W : World) (fuel : nat)
    (device : string) (repo : Candidate) (s s2 : State) (d : string)
    (fallback_branch : option string) :
  get_default_revision (st_fs s) = inr d →
  resolve_revision W repo d
    (log_more s [Print ("Found repository: " +:+ name repo);
                 Print ("Default revision: " +:+ d);
                 Print "Checking branch info"])
  = Ret fallback_branch s2 →
  let repo_path := repo_path_of device (name repo) in
  let adding := adding_of device (name repo) in
  process_repository W fuel device repo s
  = (fetch_dependencies W fuel repo_path fallback_branch;;
     print "Done";;
     sys_exit None)
      {| st_fs :=
           shell W ("repo sync --force-sync " +:+ repo_path)
             (with_local (st_fs s)
                (extend (local_document (st_fs s))
                        (added (st_fs s) fallback_branch [adding])));
         st_log :=
           st_log s2 ++ add_log (st_fs s) fallback_branch [adding]
           ++ [WriteFile roomservice_xml;
               Print "Syncing repository to retrieve project.";
               System ("repo sync --force-sync " +:+ repo_path);
               Print "Repository synced!"] |}
  ∧ (is_in_manifest (st_fs s) repo_path = false →
     added (st_fs s) fallback_branch [adding] = [project_for fallback_branch adding]
     ∧ ElementTree.get "revision" (project_for fallback_branch adding)
       = if truthy_opt fallback_branch then fallback_branch else None).
Proof.
  intros Hdefault Hresolve repo_path adding. split.
  - unfold process_repository. run. rewrite Hdefault. unfold lift_result. run.
    rewrite <- !app_assoc. cbn [app].
    change {| st_fs := st_fs s;
              st_log := st_log s ++ [Print ("Found repository: " +:+ name repo);
                                     Print ("Default revision: " +:+ d);
                                     Print "Checking branch info"] |}
      with (log_more s [Print ("Found repository: " +:+ name repo);
                        Print ("Default revision: " +:+ d);
                        Print "Checking branch info"]).
    rewrite Hresolve. unfold repo_path, adding, adding_of, repo_path_of.
    rewrite run_bind, add_to_manifest_run. run. rewrite run_os_system. run.
    rewrite (resolve_revision_fs _ _ _ _ _ _ Hresolve). cbn [st_fs].
    by rewrite <- !app_assoc.
  - intros Habsent. split.
    + unfold added, absent. by rewrite filter_cons_True.
    + by rewrite project_for_revision.
Qed.

Lemma process_repository_records_then_walks_witness :
  ∃ s3, process_repository github_with_branch 1 "bacon" bacon_repo checkout
        = (fetch_dependencies github_with_branch 1 "device/oneplus/bacon" None;;
           print "Done";;
           sys_exit None) s3.
Proof.
  destruct (process_repository_records_then_walks github_with_branch 1 "bacon"
              bacon_repo checkout
              (log_more checkout
                 [Print "Found repository: android_device_oneplus_bacon";
                  Print "Default revision: lineage-20";
                  Print "Checking branch info";
                  HttpGet "https://api.github.com/repos/LineageOS/android_device_oneplus_bacon/branches"])
              "lineage-20" None) as [Hrun _].
  - vm_compute. reflexivity.
  - vm_compute. reflexivity.
  - eexists. exact Hrun.
Defined.

(** ** Strings: what [replace] does *)

Lemma replace_from_skip (old new t s : string) :
  PyStr.replace_from old new (String.length t) (t +:+ s)
  = PyStr.replace_from old new 0 s.
Proof.
  induction t as [|c t IH]; [done |].
  rewrite append_String. simpl. apply IH.
Qed.

(** An occurrence at the very start is replaced, and the search goes on
    after it. *)
Lemma replace_prefix (a : ascii) (old new s : string) :
  PyStr.replace (String a old) new (String a old +:+ s)
  = new +:+ PyStr.replace (String a old) new s.
Proof.
  unfold PyStr.replace.
  pose proof (startswith_append (String a old) s) as Hstart.
  rewrite append_String in *. cbn [PyStr.replace_from]. rewrite Hstart.
  f_equal. cbn [String.length]. rewrite Nat.sub_succ, Nat.sub_0_r.
  apply replace_from_skip.
Qed.

(** Without an occurrence nothing changes. *)
Lemma replace_absent (old new s : string) :
  occurs_in old s = false → PyStr.replace old new s = s.
Proof.
  unfold PyStr.replace. induction s as [|c s IH]; [done |].
  cbn [occurs_in PyStr.replace_from]. intros Hno.
  apply orb_false_iff in Hno as [-> Hno]. by rewrite IH.
Qed.

(** A stretch in which the first character of [old] does not occur is
    copied. *)
Lemma replace_clean_prefix (a : ascii) (old new pre s : string) :
  a ∉ chars pre →
  PyStr.replace (String a old) new (pre +:+ s)
  = pre +:+ PyStr.replace (String a old) new s.
Proof.
  unfold PyStr.replace. induction pre as [|c pre IH]; intros Hpre; [done |].
  simpl in Hpre. apply not_elem_of_cons in Hpre as [Hc Hpre].
  rewrite !append_String. cbn [PyStr.replace_from PyStr.startswith].
  destruct (Ascii.eqb_spec a c) as [-> | _]; [done |].
  cbn [andb]. by rewrite IH.
Qed.

(** ** Main program: where the device tree goes *)

Lemma chars_append (s t : string) : chars (s +:+ t) = chars s ++ chars t.
Proof. induction s as [|c s IH]; [done |]. rewrite append_String. simpl. by rewrite IH. Qed.

Lemma startswith_true (p s : string) :
  PyStr.startswith p s = true → ∃ rest, s = p +:+ rest.
Proof.
  revert s. induction p as [|a p IH]; intros s Hs; [by exists s |].
  destruct s as [|b s]; [done |]. simpl in Hs.
  apply andb_true_iff in Hs as [Hab Hs]. apply Ascii.eqb_eq in Hab as ->.
  destruct (IH s Hs) as (rest & ->). by exists rest.
Qed.

Lemma occurs_in_true (old s : string) :
  occurs_in old s = true → ∃ pre post, s = pre +:+ old +:+ post.
Proof.
  induction s as [|c s IH]; cbn [occurs_in]; intros Hs.
  - rewrite orb_false_r in Hs. apply startswith_true in Hs as (rest & ->).
    by exists "", rest.
  - apply orb_true_iff in Hs as [Hs | Hs].
    + apply startswith_true in Hs as (rest & ->). by exists "", rest.
    + destruct (IH Hs) as (pre & post & ->). by exists (String c pre), post.
Qed.

Lemma underscores_append (s t : string) :
  underscores (s +:+ t) = (underscores s + underscores t)%nat.
Proof. unfold underscores. by rewrite chars_append, filter_app, length_app. Qed.

Lemma underscores_none (s : string) : "_"%char ∉ chars s → underscores s = 0%nat.
Proof.
  intros Hs. unfold underscores. rewrite filter_none; [done |].
  intros c Hc ->. done.
Qed.

Lemma frame_absent (m device : string) :
  "_"%char ∉ chars m → "_"%char ∉ chars device →
  occurs_in "android_device_" (m +:+ "_" +:+ device) = false.
Proof.
  intros Hm Hd.
  destruct (occurs_in "android_device_" (m +:+ "_" +:+ device)) eqn:Hocc; [| done].
  apply occurs_in_true in Hocc as (pre & post & Heq).
  apply (f_equal underscores) in Heq.
  rewrite !underscores_append, (underscores_none m), (underscores_none device) in Heq
    by done.
  change (underscores "android_device_") with 2%nat in Heq.
  change (underscores "_") with 1%nat in Heq. lia.
Qed.

(** Where the device tree goes.  For a repository named
    [android_device_<manufacturer>_<device>], neither part containing an
    underscore, lines 263 and 278 give [device/<manufacturer>/<device>]. *)
Theorem repo_path_of_device_repository (manufacturer device : string) :
  "_"%char ∉ chars manufacturer →
  "_"%char ∉ chars device →
  repo_path_of device ("android_device_" +:+ manufacturer +:+ "_" +:+ device)
  = "device/" +:+ manufacturer +:+ "/" +:+ device.
Proof.
  intros Hm Hd. unfold repo_path_of. f_equal. 
  change ("android_device_" +:+ manufacturer +:+ "_" +:+ device)
    with (String "a" "ndroid_device_" +:+ manufacturer +:+ "_" +:+ device).
  rewrite replace_prefix, append_empty_l.
  change (String "a" "ndroid_device_") with "android_device_".
  rewrite (replace_absent "android_device_") by (by apply frame_absent).
  change ("_" +:+ device) with (String "_" device).
  rewrite replace_clean_prefix by done.
  rewrite <- (append_empty_r (String "_" device)) at 2.
  rewrite replace_prefix. unfold PyStr.replace. simpl.
  by rewrite append_empty_r.
Qed.

Lemma repo_path_of_device_repository_witness :
  repo_path_of "bacon" ("android_device_" +:+ "oneplus" +:+ "_" +:+ "bacon")
  = "device/" +:+ "oneplus" +:+ "/" +:+ "bacon".
Proof.
  apply (repo_path_of_device_repository "oneplus" "bacon").
  - apply (bool_decide_unpack _). vm_compute. exact I.
  - apply (bool_decide_unpack _). vm_compute. exact I.
Defined.

(** ** Manifest store: the default revision *)

(** The default revision, read from the manifest.  With a [revision]
    attribute that is [refs/heads/], [refs/tags/] or nothing, followed by
    a name in which neither of the two occurs, the answer is the name. *)
Theorem get_default_revision_strips (fs : FS) (path : string) (m d : Element)
    (rest : list Element) (prefix b : string) :
  get_manifest_path fs = inr path →
  parse_xml fs path = inr m →
  ElementTree.findall "default" m = d :: rest →
  ElementTree.get "revision" d = Some (prefix +:+ b) →
  prefix ∈ ["refs/heads/"; "refs/tags/"; ""] →
  occurs_in "refs/heads/" b = false →
  occurs_in "refs/tags/" b = false →
  get_default_revision fs = inr b.
Proof.
  intros Hpath Hparse Hdefault Hrev Hprefix Hheads Htags.
  unfold get_default_revision. rewrite Hpath, Hparse, Hdefault, Hrev. f_equal.
  rewrite !elem_of_cons in Hprefix.
  destruct Hprefix as [-> | [-> | [-> | Hnil]]]; [| | | by apply elem_of_nil in Hnil].
  - change ("refs/heads/" +:+ b) with (String "r" "efs/heads/" +:+ b).
    rewrite replace_prefix, append_empty_l.
    rewrite (replace_absent "refs/heads/") by done.
    by rewrite (replace_absent "refs/tags/").
  - rewrite (replace_absent "refs/heads/").
    + change ("refs/tags/" +:+ b) with (String "r" "efs/tags/" +:+ b).
      rewrite replace_prefix, append_empty_l. by rewrite replace_absent.
    + rewrite !append_String, append_empty_l. cbn. exact Hheads.
  - rewrite append_empty_l.
    rewrite (replace_absent "refs/heads/") by done.
    by rewrite (replace_absent "refs/tags/").
Qed.

Lemma get_default_revision_strips_witness :
  get_default_revision (st_fs checkout) = inr "lineage-20".
Proof.
  apply (get_default_revision_strips (st_fs checkout) manifest_xml
           (Elem "manifest" ∅
                 [Elem "remote" {[ "name" := "github" ]} [];
                  Elem "default" {[ "revision" := "refs/heads/lineage-20" ]} []])
           (Elem "default" {[ "revision" := "refs/heads/lineage-20" ]} [])
           [] "refs/heads/" "lineage-20").
  - vm_compute. reflexivity.
  - vm_compute. reflexivity.
  - vm_compute. reflexivity.
  - vm_compute. reflexivity.
  - apply (bool_decide_unpack _). vm_compute. exact I.
  - vm_compute. reflexivity.
  - vm_compute. reflexivity.
Defined.

(** ** Search-result filter: device names without pattern syntax *)

(** For a device name made of characters that mean nothing special in a
    pattern, the filter of line 260 never raises and accepts exactly the
    names [android_device_<manufacturer>_<device>] with a manufacturer
    free of underscores; as [$] allows, one final newline is tolerated. *)
Theorem device_filter_accepts (device name : string) :
  plain device →
  ∃ b, device_filter device name = Some b
       ∧ (b = true
          ↔ ∃ manufacturer,
              ("_"%char ∉ chars manufacturer)
              ∧ (name = "android_device_" +:+ manufacturer +:+ "_" +:+ device
                 ∨ name = "android_device_" +:+ manufacturer +:+ "_" +:+ device
                          +:+ String PyRe.newline "")).
Proof.
  intros Hplain. exists (literal_device_filter device name).
  split; [by apply device_filter_plain | apply literal_device_filter_spec].
Qed.

Lemma device_filter_accepts_witness :
  ∃ b, device_filter "bacon" "android_device_oneplus_bacon" = Some b
       ∧ (b = true
          ↔ ∃ manufacturer,
              ("_"%char ∉ chars manufacturer)
              ∧ ("android_device_oneplus_bacon"
                 = "android_device_" +:+ manufacturer +:+ "_" +:+ "bacon"
                 ∨ "android_device_oneplus_bacon"
                   = "android_device_" +:+ manufacturer +:+ "_" +:+ "bacon"
                     +:+ String PyRe.newline "")).
Proof.
  apply (device_filter_accepts "bacon" "android_device_oneplus_bacon").
  apply (bool_decide_unpack _). vm_compute. exact I.
Defined.

(** ** The pretty-printer *)

(** Induction over a node and, with it, all its children. *)
Section NodeInduction.

Variable P : Node → Prop.
Hypothesis step : ∀ t a text tail cs, Forall P cs → P (MkNode t a text tail cs).

Fixpoint Node_induction (e : Node) : P e :=
  match e with
  | MkNode t a text tail cs =>
      step t a text tail cs
        ((fix all (l : list Node) : Forall P l :=
            match l with
            | [] => Forall_nil_2 P
            | c :: l' => Forall_cons_2 P c l' (Node_induction c) (all l')
            end) cs)
  end.

End NodeInduction.


Example indent_manifest :
  indent 0 (MkNode "manifest" ∅ None None
              [MkNode "project" ∅ None None []; MkNode "project" ∅ None None []])
  = MkNode "manifest" ∅ (Some (String PyRe.newline "  ")) (Some (String PyRe.newline ""))
      [MkNode "project" ∅ None (Some (String PyRe.newline "  ")) [];
       MkNode "project" ∅ None (Some (String PyRe.newline "")) []].
Proof. reflexivity. Qed.


Lemma blank_times (level : nat) :
  forallb PyText.isspace (list_ascii_of_string (PyText.times level "  ")) = true.
Proof. induction level as [|level IH]; [done |]. simpl. exact IH. Qed.

Lemma blank_indentation (level : nat) : PyText.blank (Some (indentation level)) = true.
Proof. unfold indentation. simpl. apply blank_times. Qed.

Lemma blank_indentation_more (level : nat) :
  PyText.blank (Some (indentation level +:+ "  ")) = true.
Proof.
  unfold indentation. rewrite append_String. simpl.
  induction level as [|level IH]; [done |]. simpl. exact IH.
Qed.

Lemma retail_last_snoc (i : string) (front : list Node) (last : Node) :
  retail_last i (front ++ [last]) = front ++ [retail i last].
Proof.
  induction front as [|c front IH]; [done |].
  simpl. rewrite IH. by destruct front.
Qed.

Lemma nonempty_snoc {A} (x : A) (l : list A) : ∃ front last, x :: l = front ++ [last].
Proof.
  revert x. induction l as [|y l IH]; intros x; [by exists [], x |].
  destruct (IH y) as (front & last & ->). by exists (x :: front), last.
Qed.

Lemma indent_unfold (level : nat) (t : string) (a : gmap string string)
    (text tail : option string) (c : Node) (cs : list Node) :
  indent level (MkNode t a text tail (c :: cs))
  = MkNode t a
      (if PyText.blank text then Some (indentation level +:+ "  ") else text)
      (if PyText.blank tail then Some (indentation level) else tail)
      (retail_last (indentation level) (map (indent (S level)) (c :: cs))).
Proof. reflexivity. Qed.

Lemma content_retail (i : string) (e : Node) :
  PyText.blank (Some i) = true → content (retail i e) = content e.
Proof.
  intros Hi. unfold retail. destruct e as [t a text tail cs].
  cbn [n_tail]. destruct (PyText.blank tail) eqn:Htail; [| done].
  unfold with_tail. cbn [content n_tag n_attrib n_text n_children].
  by rewrite Hi, Htail.
Qed.

(** [indent] touches nothing but whitespace: tags, attributes, the
    children and their order, and every text or tail with something other
    than whitespace in it are as before. *)
Theorem indent_keeps_content (level : nat) (elem : Node) :
  content (indent level elem) = content elem
  ∧ skeleton (indent level elem) = skeleton elem.
Proof.
  revert level. induction elem as [t a text tail cs IH] using Node_induction.
  intros level. destruct cs as [|c cs].
  - destruct level as [|level]; [by split |]. cbn [indent].
    fold (indentation (S level)).
    destruct (PyText.blank tail) eqn:Htail; [| by split]. split; [| done].
    cbn [content map]. by rewrite blank_indentation, Htail.
  - rewrite indent_unfold.
    destruct (nonempty_snoc c cs) as (front & last & Hcs). rewrite Hcs in *.
    rewrite map_app. cbn [map]. rewrite retail_last_snoc.
    rewrite Forall_app, Forall_singleton in IH. destruct IH as [Hfront Hlast].
    assert (map content (map (indent (S level)) front) = map content front) as Hcf.
    { clear -Hfront. induction Hfront as [|x l Hx Hl IHl]; [done |].
      simpl. rewrite IHl. by destruct (Hx (S level)) as [-> _]. }
    assert (map skeleton (map (indent (S level)) front) = map skeleton front) as Hsf.
    { clear -Hfront. induction Hfront as [|x l Hx Hl IHl]; [done |].
      simpl. rewrite IHl. by destruct (Hx (S level)) as [_ ->]. }
    split.
    + cbn [content]. rewrite !map_app, Hcf. cbn [map].
      rewrite content_retail by apply blank_indentation.
      destruct (Hlast (S level)) as [-> _]. f_equal.
      * destruct (PyText.blank text) eqn:Htext; [| by rewrite Htext].
        by rewrite blank_indentation_more.
      * destruct (PyText.blank tail) eqn:Htail; [| by rewrite Htail].
        by rewrite blank_indentation.
    + cbn [skeleton]. rewrite !map_app, Hsf. cbn [map]. f_equal. f_equal. f_equal.
      destruct (Hlast (S level)) as [_ <-]. unfold retail.
      destruct (PyText.blank _); [| done]. by destruct (indent (S level) last).
Qed.

Lemma indent_with_tail (level : nat) (tail : option string) (e : Node) :
  indent (S level) (with_tail tail e)
  = with_tail (if PyText.blank tail then Some (indentation (S level)) else tail)
              (indent (S level) e).
Proof.
  destruct e as [t a text tail0 [|c cs]]; unfold with_tail;
    cbn [n_tag n_attrib n_text n_children].
  - cbn [indent]. fold (indentation (S level)).
    by destruct (PyText.blank tail), (PyText.blank tail0).
  - by rewrite !indent_unfold.
Qed.

Lemma with_tail_same (e : Node) : with_tail (n_tail e) e = e.
Proof. by destruct e. Qed.

Lemma with_tail_twice (t1 t2 : option string) (e : Node) :
  with_tail t1 (with_tail t2 e) = with_tail t1 e.
Proof. done. Qed.

(** Pretty-printing what is already pretty-printed changes nothing. *)
Theorem indent_idempotent (level : nat) (elem : Node) :
  indent level (indent level elem) = indent level elem.
Proof.
  revert level. induction elem as [t a text tail cs IH] using Node_induction.
  intros level. destruct cs as [|c cs].
  - destruct level as [|level]; [done |]. cbn [indent].
    fold (indentation (S level)).
    destruct (PyText.blank tail) eqn:Htail.
    + cbn [indent]. fold (indentation (S level)). by rewrite blank_indentation.
    + cbn [indent]. by rewrite Htail.
  - rewrite indent_unfold.
    destruct (nonempty_snoc c cs) as (front & last & Hcs). rewrite Hcs in *.
    rewrite Forall_app, Forall_singleton in IH. destruct IH as [Hfront Hlast].
    rewrite map_app. cbn [map]. rewrite retail_last_snoc.
    assert (∃ c' cs', map (indent (S level)) front ++ [retail (indentation level)
                                                          (indent (S level) last)]
                      = c' :: cs') as (c' & cs' & Hshape).
    { destruct front; simpl; eauto. }
    rewrite Hshape, indent_unfold, <- Hshape. clear Hshape c' cs'.
    f_equal.
    + destruct (PyText.blank text) eqn:Htext; [| by rewrite Htext].
      by rewrite blank_indentation_more.
    + destruct (PyText.blank tail) eqn:Htail; [| by rewrite Htail].
      by rewrite blank_indentation.
    + rewrite map_app. cbn [map]. rewrite retail_last_snoc. f_equal.
      * clear -Hfront. induction Hfront as [|x l Hx Hl IHl]; [done |].
        simpl. by rewrite IHl, Hx.
      * f_equal. specialize (Hlast (S level)).
        set (x := indent (S level) last) in *. unfold retail at 2.
        destruct (PyText.blank (n_tail x)) eqn:Hx.
        -- rewrite indent_with_tail, Hlast, blank_indentation.
           unfold retail. cbn [with_tail n_tail]. rewrite blank_indentation.
           by rewrite with_tail_twice, Hx.
        -- by rewrite Hlast.
Qed.

(** The layout of a flat document, as [add_to_manifest] writes it: a
    root whose children have no children, no text of their own around
    them.  The root's text and every tail but the last are a newline and
    two spaces, the last tail and the root's own tail a newline. *)
Theorem indent_flat_document (t : string) (a : gmap string string)
    (text tail : option string) (front : list Node) (last : Node) :
  PyText.blank text = true →
  PyText.blank tail = true →
  Forall (λ c, n_children c = [] ∧ PyText.blank (n_tail c) = true) (front ++ [last]) →
  indent 0 (MkNode t a text tail (front ++ [last]))
  = MkNode t a (Some (String PyRe.newline "  ")) (Some (String PyRe.newline ""))
      ((with_tail (Some (String PyRe.newline "  ")) <$> front)
       ++ [with_tail (Some (String PyRe.newline "")) last]).
Proof.
  intros Htext Htail Hleaves.
  rewrite Forall_app, Forall_singleton in Hleaves. destruct Hleaves as [Hfront Hlast].
  assert (∀ c, n_children c = [] ∧ PyText.blank (n_tail c) = true →
               indent 1 c = with_tail (Some (String PyRe.newline "  ")) c) as Hleaf.
  { intros [t' a' text' tail' cs'] [Hc Hb]. simpl in Hc, Hb. subst cs'.
    cbn [indent]. by rewrite Hb. }
  assert (∃ c cs, front ++ [last] = c :: cs) as (c & cs & Hshape)
    by (destruct front; simpl; eauto).
  rewrite Hshape, indent_unfold, <- Hshape. rewrite Htext, Htail.
  rewrite map_app. cbn [map]. rewrite retail_last_snoc. f_equal. f_equal.
  - clear -Hfront Hleaf. induction Hfront as [|x l Hx Hl IHl]; [done |].
    simpl. by rewrite IHl, Hleaf.
  - rewrite Hleaf by done. unfold retail. cbn [with_tail n_tail].
    by rewrite with_tail_twice.
Qed.

Lemma indent_flat_document_witness :
  indent 0 (MkNode "manifest" ∅ None None
              ([MkNode "project" ∅ None None []] ++ [MkNode "project" ∅ None None []]))
  = MkNode "manifest" ∅ (Some (String PyRe.newline "  ")) (Some (String PyRe.newline ""))
      ((with_tail (Some (String PyRe.newline "  ")) <$> [MkNode "project" ∅ None None []])
       ++ [with_tail (Some (String PyRe.newline "")) (MkNode "project" ∅ None None [])]).
Proof.
  apply (indent_flat_document "manifest" ∅ None None
           [MkNode "project" ∅ None None []] (MkNode "project" ∅ None None [])).
  - reflexivity.
  - reflexivity.
  - apply Forall_app. split; apply Forall_singleton; split; reflexivity.
Defined.

(** ** Manifest store: which file is the main manifest *)

(** The document [is_in_manifest] takes for the main manifest.  With a
    [default] element in [.repo/manifest.xml] it is that file.  Without
    one, it is the file the first [include] names under
    [.repo/manifests/], and then the projects listed in
    [.repo/manifest.xml] itself are not looked at.  When
    [.repo/manifest.xml] is missing or unparsable, or has neither
    element, nothing is raised and the document is empty. *)
Theorem main_document_cases (fs : FS) :
  (∀ m d rest,
      parse_xml fs manifest_xml = inr m →
      ElementTree.findall "default" m = d :: rest →
      main_document fs = m)
  ∧ (∀ m inc,
        parse_xml fs manifest_xml = inr m →
        ElementTree.findall "default" m = [] →
        ElementTree.find "include" m = Some inc →
        main_document fs
        = load_or_empty fs
            (inr (".repo/manifests/" +:+ fmt_opt (ElementTree.get "name" inc)))
        ∧ ∀ path,
            is_in_manifest fs path = true
            ↔ has_entry (local_document fs) path
              ∨ has_entry (load_or_empty fs
                             (inr (".repo/manifests/"
                                   +:+ fmt_opt (ElementTree.get "name" inc)))) path
              ∨ has_entry (snippet_document fs) path)
  ∧ ((parse_xml fs manifest_xml = inl ParseError
      ∨ ∃ m, parse_xml fs manifest_xml = inr m
             ∧ ElementTree.findall "default" m = []
             ∧ ElementTree.find "include" m = None) →
     main_document fs = ElementTree.empty_manifest).
Proof.
  unfold main_document, get_manifest_path. split; [| split].
  - intros m d rest Hm Hd. rewrite Hm, Hd. unfold load_or_empty. by rewrite Hm.
  - intros m inc Hm Hd Hinc.
    assert (main_document fs
            = load_or_empty fs
                (inr (".repo/manifests/" +:+ fmt_opt (ElementTree.get "name" inc))))
      as Hmain.
    { unfold main_document, get_manifest_path. by rewrite Hm, Hd, Hinc. }
    split; [exact Hmain |].
    intros path. rewrite is_in_manifest_orb, Hmain, !orb_true_iff,
      !has_project_path_true. tauto.
  - intros [Hm | (m & Hm & Hd & Hinc)].
    + by rewrite Hm.
    + by rewrite Hm, Hd, Hinc.
Qed.

Lemma main_document_cases_witness :
  is_in_manifest old_style "vendor/old" = true
  ∧ is_in_manifest new_style "vendor/new" = true
  ∧ is_in_manifest new_style "vendor/unseen" = false.
Proof.
  destruct (main_document_cases new_style) as (_ & Hnew & _).
  destruct (Hnew (Elem "manifest" ∅
                       [Elem "include" {[ "name" := "default.xml" ]} [];
                        Elem "project" {[ "path" := "vendor/unseen" ]} []])
                 (Elem "include" {[ "name" := "default.xml" ]} []))
    as [Heq Hiff].
  - vm_compute. reflexivity.
  - vm_compute. reflexivity.
  - vm_compute. reflexivity.
  - split; [vm_compute; reflexivity |]. split; [| vm_compute; reflexivity].
    apply Hiff. right. left.
    exists (Elem "project" {[ "path" := "vendor/new" ]} []).
    split; [| split; vm_compute; reflexivity].
    vm_compute. apply list_elem_of_further, list_elem_of_here.
Defined.

(** ** Manifest store: the unused membership test *)

(** [exists_in_tree] (line 89, never called).  On an interpreter without
    [Element.getchildren], which is every one from Python 3.9 on, any
    call raises [AttributeError], whatever the document and the path.
    On Python 3.8 it looks at every child of the document it is given,
    whatever its tag, and reads [path] unguarded: on a document all of
    whose children have a [path] it answers whether one of them has this
    path, and a child without [path] that comes before any match raises
    [KeyError]. *)
Theorem exists_in_tree_spec (lm : Element) (path : string) :
  exists_in_tree false lm path = inl AttributeError
  ∧ (Forall (λ c, is_Some (attrib c !! "path")) (children lm) →
     exists_in_tree true lm path
     = inr (existsb (λ c, bool_decide (attrib c !! "path" = Some path)) (children lm)))
  ∧ (∀ pre c post,
        children lm = pre ++ c :: post →
        Forall (λ c', ∃ p, attrib c' !! "path" = Some p ∧ p ≠ path) pre →
        attrib c !! "path" = None →
        exists_in_tree true lm path = inl KeyError).
Proof.
  unfold exists_in_tree. split; [done |]. split.
  - induction 1 as [|c cs [p Hp] Hcs IH]; [done |].
    simpl. rewrite Hp. destruct (decide (p = path)) as [-> | Hne].
    + rewrite !bool_decide_eq_true_2; done.
    + rewrite bool_decide_eq_false_2 by done.
      rewrite (bool_decide_eq_false_2 (Some p = Some path)) by congruence.
      exact IH.
  - intros pre c post -> Hpre Hc.
    induction Hpre as [|c' pre (p & Hp & Hne) Hpre IH]; simpl.
    + by rewrite Hc.
    + rewrite Hp, bool_decide_eq_false_2 by done. exact IH.
Qed.

Lemma exists_in_tree_spec_witness :
  exists_in_tree true
    (extend ElementTree.empty_manifest
            [project_for None pinned_bar; project_for None vendor_foo]) "vendor/foo"
  = inr (existsb (λ c, bool_decide (attrib c !! "path" = Some "vendor/foo"))
                 (children (extend ElementTree.empty_manifest
                                   [project_for None pinned_bar;
                                    project_for None vendor_foo]))).
Proof.
  apply (proj1 (proj2 (exists_in_tree_spec
                         (extend ElementTree.empty_manifest
                                 [project_for None pinned_bar;
                                  project_for None vendor_foo])
                         "vendor/foo"))).
  apply (bool_decide_unpack _). vm_compute. exact I.
Defined.

(** ** Main program: failures before anything is written *)

(** A repository was found, and then the default revision cannot be
    read, or the branch request fails, or the tag request fails: the
    error is not caught, and it comes before the first write and the
    first command.  The file system is as it was. *)
Theorem process_repository_fails_before_writing (W : World) (fuel : nat)
    (device : string) (repo : Candidate) (s : State) :
  (∀ e, get_default_revision (st_fs s) = inl e →
        process_repository W fuel device repo s
        = Halted (Uncaught e)
            (log_more s [Print ("Found repository: " +:+ name repo)]))
  ∧ (∀ d e, get_default_revision (st_fs s) = inr d →
            branches_reply W (branches_endpoint repo) = HttpFail e →
            process_repository W fuel device repo s
            = Halted (Uncaught e)
                (log_more s [Print ("Found repository: " +:+ name repo);
                             Print ("Default revision: " +:+ d);
                             Print "Checking branch info";
                             HttpGet (branches_endpoint repo)]))
  ∧ (∀ d bs e, get_default_revision (st_fs s) = inr d →
               branches_reply W (branches_endpoint repo) = HttpOk bs →
               d ∉ branch_name <$> bs →
               tags_reply W (tags_endpoint repo) = HttpFail e →
               process_repository W fuel device repo s
               = Halted (Uncaught e)
                   (log_more s [Print ("Found repository: " +:+ name repo);
                                Print ("Default revision: " +:+ d);
                                Print "Checking branch info";
                                HttpGet (branches_endpoint repo);
                                HttpGet (tags_endpoint repo)])).
Proof.
  split; [| split].
  - intros e He. unfold process_repository. run. rewrite He.
    unfold lift_result, raise. by run.
  - intros d e Hd Hb. unfold process_repository. run. rewrite Hd.
    unfold lift_result. run. unfold resolve_revision.
    rewrite !run_bind, fetch_refs_run. cbn zeta. rewrite Hb.
    unfold log_more. simpl. by rewrite <- !app_assoc.
  - intros d bs e Hd Hb Hno Ht. unfold process_repository. run. rewrite Hd.
    unfold lift_result. run. unfold resolve_revision.
    rewrite !run_bind, fetch_refs_run. cbn zeta. rewrite Hb.
    rewrite bool_decide_eq_false_2 by done. rewrite Ht.
    unfold log_more. simpl. by rewrite <- !app_assoc.
Qed.

Lemma process_repository_fails_before_writing_witness :
  process_repository offline 1 "bacon" bacon_repo checkout
  = Halted (Uncaught URLError)
      (log_more checkout
         [Print ("Found repository: " +:+ name bacon_repo);
          Print ("Default revision: " +:+ "lineage-20");
          Print "Checking branch info";
          HttpGet (branches_endpoint bacon_repo)]).
Proof.
  apply (proj1 (proj2 (process_repository_fails_before_writing offline 1 "bacon"
                         bacon_repo checkout))).
  - vm_compute. reflexivity.
  - reflexivity.
Defined.

(** ** Revision resolver: the fallback list *)

(** Line 284.  Whatever the value of [ROOMSERVICE_BRANCHES], the names
    tried as fallbacks are never empty and never contain a space; a value
    of spaces only gives no fallback at all. *)
Theorem fallbacks_of_names (value : string) :
  Forall (λ f, f ≠ "" ∧ (" "%char ∉ chars f)) (fallbacks_of value)
  ∧ (Forall (λ c, c = " "%char) (chars value) → fallbacks_of value = []).
Proof.
  split.
  - apply Forall_forall. intros f Hf. unfold fallbacks_of in Hf.
    apply list_elem_of_In, filter_In in Hf as [Hin Htruthy].
    split; [by intros -> |].
    by apply (split_fields_no_separator " " value), list_elem_of_In.
  - unfold fallbacks_of. induction value as [|a value IH]; [done |].
    simpl. intros Hall. apply Forall_cons in Hall as [-> Hall].
    simpl. by apply IH.
Qed.

Lemma fallbacks_of_names_witness : fallbacks_of "   " = [].
Proof.
  apply (proj2 (fallbacks_of_names "   ")).
  apply (bool_decide_unpack _). vm_compute. exact I.
Defined.
